(** * l5kit: scene-to-visualisation conversion and closed-loop reward

    A shallow embedding of
    - [l5kit/visualization/visualiser/zarr_utils.py]
      ([_get_frame_trajectories], [_get_frame_data], [zarr_to_visualizer_scene]);
    - [l5kit/environment/reward.py] ([CLEReward.get_reward]).

    Numbers.  numpy's floating-point arrays are modelled over the real numbers
    [R]: every statement below about coordinates, probabilities and rewards is
    a statement in exact arithmetic.  Integers (track ids, scene ids, frame
    indices) are [Z]; positions inside arrays are [nat].

    Exceptions.  A Python call that can raise returns a [result]; the
    exception aborts everything after it, which is what [≫=] does. *)

From Stdlib Require Import Reals Lra.
From stdpp Require Import gmap strings list.

(** ** Python exceptions as an error monad *)

Inductive PyError : Type :=
  | ValueError
  | KeyError
  | IndexError
  | TypeError
  | ExternalError (tag : string).

Inductive result (A : Type) : Type :=
  | Ok (a : A)
  | Raise (e : PyError).
Arguments Ok {A} a.
Arguments Raise {A} e.

#[global] Instance result_ret : MRet result := λ A a, Ok a.
#[global] Instance result_bind : MBind result := λ A B f m,
  match m with
  | Ok a => f a
  | Raise e => Raise e
  end.
#[global] Instance result_fmap : FMap result := λ A B f m,
  match m with
  | Ok a => Ok (f a)
  | Raise e => Raise e
  end.

Definition is_Ok {A} (m : result A) : Prop := ∃ a, m = Ok a.

(** ** Comparisons of reals as booleans *)

#[global] Instance Rlt_decision (x y : R) : Decision (x < y)%R := Rlt_dec x y.
#[global] Instance Rle_decision (x y : R) : Decision (x <= y)%R := Rle_dec x y.

(** ** The numpy and Python operations the two modules use *)

Module np.

(** [xs[i]] for a non-negative position: [IndexError] out of range. *)
Definition getitem {A} (xs : list A) (i : nat) : result A :=
  match xs !! i with
  | Some x => Ok x
  | None => Raise IndexError
  end.

(** [xs[i]] for a Python integer: a negative [i] counts from the end. *)
Definition getitem_int {A} (xs : list A) (i : Z) : result A :=
  if decide (0 ≤ i)%Z then getitem xs (Z.to_nat i)
  else if decide (- Z.of_nat (length xs) ≤ i)%Z
       then getitem xs (Z.to_nat (Z.of_nat (length xs) + i))
       else Raise IndexError.

(** [d[k]] on a dict: [KeyError] for a missing key. *)
Definition dict_get `{Countable K} {V} (d : gmap K V) (k : K) : result V :=
  match d !! k with
  | Some v => Ok v
  | None => Raise KeyError
  end.

(** [xs[start:stop]] with non-negative bounds: clamped, never raises. *)
Definition slice {A} (xs : list A) (start stop : nat) : list A :=
  take (stop - start) (drop start xs).

(** [xs[mask]] for a boolean mask as long as [xs]. *)
Fixpoint bool_index {A} (mask : list bool) (xs : list A) : list A :=
  match mask, xs with
  | b :: mask', x :: xs' =>
      if b then x :: bool_index mask' xs' else bool_index mask' xs'
  | _, _ => []
  end.

(** Python's [max(a, b)]: [b] when [b > a], otherwise [a]. *)
Definition max (a b : R) : R := if bool_decide (a < b)%R then b else a.

(** Number of [True] entries of a boolean array. *)
Definition count_nonzero (mask : list bool) : nat :=
  length (filter (λ b, b = true) mask).

(** [avail > 0], elementwise. *)
Definition gt0 (avail : list R) : list bool :=
  map (λ a, bool_decide (0 < a)%R) avail.

(** [np.argmax]: position of the first maximum; [ValueError] on an empty
    array. *)
Fixpoint argmax_from (best : R) (best_i : nat) (i : nat) (xs : list R) : nat :=
  match xs with
  | [] => best_i
  | x :: xs' =>
      if bool_decide (best < x)%R then argmax_from x i (S i) xs'
      else argmax_from best best_i (S i) xs'
  end.

Definition argmax (xs : list R) : result nat :=
  match xs with
  | [] => Raise ValueError
  | x :: xs' => Ok (argmax_from x 0%nat 1%nat xs')
  end.

(** [np.sum] of a one-dimensional array. *)
Definition sum (xs : list R) : R := foldr Rplus 0%R xs.

(** [np.mean] of a one-dimensional array. *)
Definition mean (xs : list R) : R := (sum xs / INR (length xs))%R.

End np.

(** ** The records of the dataset ([l5kit.data]) *)

Definition Point2 : Type := R * R.
Definition Point3 : Type := R * R * R.

Definition xy (p : Point3) : Point2 := (p.1.1, p.1.2).

Record Scene : Type := {
  frame_index_interval : nat * nat;
  host : string;
}.

Record Frame : Type := {
  timestamp : Z;
  agent_index_interval : nat * nat;
  traffic_light_faces_index_interval : nat * nat;
  ego_translation : Point3;
  ego_rotation : list (list R);
}.

Record Agent : Type := {
  centroid : Point2;
  extent : Point3;
  yaw : R;
  track_id : Z;
  label_probabilities : list R;
}.

Inductive TLFaceStatus : Type := ACTIVE | INACTIVE | UNKNOWN.

#[global] Instance TLFaceStatus_eq_dec : EqDecision TLFaceStatus.
Proof. solve_decision. Defined.

Record TLFace : Type := {
  face_id : string;
  traffic_light_id : string;
  traffic_light_face_status : TLFaceStatus;
}.

Record ChunkedDataset : Type := {
  scenes : list Scene;
  frames : list Frame;
  agents : list Agent;
  tl_faces : list TLFace;
}.

(** ** The map service ([l5kit.data.map_api.MapAPI]) *)

(** A bounding box: (x_min, y_min), (x_max, y_max). *)
Definition Bounds : Type := Point2 * Point2.

Record LaneCoords : Type := {
  xyz_left : list Point3;
  xyz_right : list Point3;
}.

Record BoundsInfo : Type := {
  bounds : list Bounds;
  ids : list string;
}.

(** The queries of the map service are arguments of the conversion; each of
    them may raise. *)
Record MapAPI : Type := {
  bounds_info_lanes : BoundsInfo;
  bounds_info_crosswalks : BoundsInfo;
  get_lane_traffic_control_ids : string → result (list string);
  get_color_for_face : string → result string;
  get_lane_coords : string → result LaneCoords;
  get_crosswalk_coords : string → result (list Point3);
}.

(** ** The visualisation records ([l5kit.visualization.visualiser.common]) *)

Record LaneVisualisation : Type := {
  lane_xs : list R;
  lane_ys : list R;
  lane_color : string;
}.

Record CWVisualisation : Type := {
  cw_xs : list R;
  cw_ys : list R;
  cw_color : string;
}.

Record AgentVisualisation : Type := {
  agent_xs : list R;
  agent_ys : list R;
  agent_color : string;
  agent_track_id : Z;
  agent_type : string;
  agent_prob : R;
}.

Record EgoVisualisation : Type := {
  ego_xs : list R;
  ego_ys : list R;
  ego_color : string;
  center_x : R;
  center_y : R;
}.

Record TrajectoryVisualisation : Type := {
  traj_xs : list R;
  traj_ys : list R;
  traj_color : string;
  legend_label : string;
  traj_track_id : Z;
}.

Record FrameVisualisation : Type := {
  ego : EgoVisualisation;
  agents_vis : list AgentVisualisation;
  lanes : list LaneVisualisation;
  crosswalks : list CWVisualisation;
  trajectories : list TrajectoryVisualisation;
}.

(** ** The helpers of [l5kit.data.filter] and [l5kit.sampling]

    These functions belong to the toolkit but their source is not part of the
    files verified here; they are written from the specification. *)

Module l5kit.

(** Modelled from the spec: [filter_agents_by_frames] is missing.  "A
    half-open interval identifying which rows of the agent table ... belong
    to this frame"; the result holds "the agent records partitioned per
    frame", one array per frame, in frame order. *)
Definition filter_agents_by_frames (frames : list Frame) (agents : list Agent)
  : list (list Agent) :=
  map (λ frame, np.slice agents (agent_index_interval frame).1
                                (agent_index_interval frame).2) frames.

(** Modelled from the spec: [filter_tl_faces_by_frames] is missing.  The
    same half-open interval contract, on the traffic-signal table. *)
Definition filter_tl_faces_by_frames (frames : list Frame) (tl_faces : list TLFace)
  : list (list TLFace) :=
  map (λ frame, np.slice tl_faces (traffic_light_faces_index_interval frame).1
                                  (traffic_light_faces_index_interval frame).2)
      frames.

(** Modelled from the spec: [filter_tl_faces_by_status] is missing.  A face
    has an "active/inactive status for its frame"; the faces with the
    requested status are kept, in order. *)
Definition filter_tl_faces_by_status (tl_faces : list TLFace) (status : TLFaceStatus)
  : list TLFace :=
  filter (λ f, traffic_light_face_status f = status) tl_faces.

(** Modelled from the spec: the "top label probability" that
    [filter_agents_by_labels] compares with the threshold, the probability
    of the most probable class of an agent, if it has any class at all. *)
Definition top_label_probability (a : Agent) : option R :=
  match label_probabilities a with
  | [] => None
  | p :: ps => Some (foldl Rmax p ps)
  end.

(** Modelled from the spec: the test of [filter_agents_by_labels], "top
    label probability is below the threshold". *)
Definition below_threshold (threshold : R) (a : Agent) : Prop :=
  match top_label_probability a with
  | Some p => (p < threshold)%R
  | None => False
  end.

#[global] Instance below_threshold_dec threshold a :
  Decision (below_threshold threshold a).
Proof. unfold below_threshold. destruct (top_label_probability a); apply _. Defined.

(** Modelled from the spec: [filter_agents_by_labels] is missing.  "Filter
    agents by discarding any whose top label probability is below the
    threshold." *)
Definition filter_agents_by_labels (agents : list Agent) (threshold : R)
  : list Agent :=
  filter (λ a, ¬ below_threshold threshold a) agents.

(** Modelled from the spec: [filter_agents_by_track_id] is missing.  The
    rows of one frame that carry the given track identifier. *)
Definition filter_agents_by_track_id (agents : list Agent) (tid : Z) : list Agent :=
  filter (λ a, track_id a = tid) agents.

(** Modelled from the spec: one window step of [get_relative_poses], a
    position and its availability (1 or 0).  [None] selects the ego
    vehicle; an absent track identifier leaves the step unavailable. *)
Definition pose_at (selected_track_id : option Z)
    (frame : Frame) (frame_agents : list Agent) : Point2 * R :=
  match selected_track_id with
  | None => (xy (ego_translation frame), 1%R)
  | Some tid =>
      match filter_agents_by_track_id frame_agents tid with
      | a :: _ => (centroid a, 1%R)
      | [] => ((0%R, 0%R), 0%R)
      end
  end.

(** Modelled from the spec: [get_relative_poses] is missing.  "For the ego
    trajectory, collect ego positions for frames [start, start+window)"
    with "no relative transform applied"; "for each requested agent track
    identifier, collect that identifier's position across the same sliding
    window, skipping frames where the identifier is absent.  An availability
    mask (one boolean per window step) marks which positions are valid";
    "window extends past the end of the scene → truncate to available
    frames, do not error".  The callers pass the identity transform and a
    zero yaw, and read two components of the result only: the positions
    and the availabilities, both [num_frames] long. *)
Definition get_relative_poses (num_frames : nat) (frames : list Frame)
    (selected_track_id : option Z) (agents : list (list Agent))
  : list Point2 * list R :=
  let steps := take num_frames (zip_with (pose_at selected_track_id) frames agents) in
  let padded := steps ++ replicate (num_frames - length steps) ((0%R, 0%R), 0%R) in
  (map fst padded, map snd padded).

End l5kit.

(** ** [zarr_utils.py] *)

Module zarr_utils.
Import l5kit.

Definition COLORS : gmap string string :=
  list_to_map
    [ ("GREEN", "#33CC33");
      ("RED", "#FF3300");
      ("YELLOW", "#FFFF66");
      ("PERCEPTION_LABEL_CAR", "#1F77B4");
      ("PERCEPTION_LABEL_CYCLIST", "#CC33FF");
      ("PERCEPTION_LABEL_PEDESTRIAN", "#66CCFF") ].

(** *** [_get_frame_trajectories] *)

Definition agent_traj_length : nat := 20.
Definition ego_traj_length : nat := 100.

(** The body of [for track_id in track_ids]. *)
Definition agent_trajectory (frames : list Frame) (agents_frames : list (list Agent))
    (frame_index : nat) (tid : Z) : TrajectoryVisualisation :=
  let '(pos, avail) :=
    get_relative_poses agent_traj_length
      (np.slice frames frame_index (frame_index + agent_traj_length))
      (Some tid)
      (np.slice agents_frames frame_index (frame_index + agent_traj_length)) in
  {| traj_xs := np.bool_index (np.gt0 avail) (map fst pos);
     traj_ys := np.bool_index (np.gt0 avail) (map snd pos);
     traj_color := "blue";
     legend_label := "agent_trajectory";
     traj_track_id := tid |}.

Definition ego_trajectory (frames : list Frame) (agents_frames : list (list Agent))
    (frame_index : nat) : TrajectoryVisualisation :=
  let '(pos, avail) :=
    get_relative_poses ego_traj_length
      (np.slice frames frame_index (frame_index + ego_traj_length))
      None
      (np.slice agents_frames frame_index (frame_index + ego_traj_length)) in
  {| traj_xs := np.bool_index (np.gt0 avail) (map fst pos);
     traj_ys := np.bool_index (np.gt0 avail) (map snd pos);
     traj_color := "red";
     legend_label := "ego_trajectory";
     traj_track_id := (-1)%Z |}.

Definition _get_frame_trajectories (frames : list Frame)
    (agents_frames : list (list Agent)) (track_ids : list Z) (frame_index : nat)
  : list TrajectoryVisualisation :=
  map (agent_trajectory frames agents_frames frame_index) track_ids
    ++ [ego_trajectory frames agents_frames frame_index].

(** *** The geometry of [_get_frame_data] *)

Definition corners_base_coords : list Point2 :=
  map (λ p : Point2, (p.1 * 0.5, p.2 * 0.5)%R)
      [ (-1, -1); (-1, 1); (1, 1); (1, -1) ]%R.

(** [corners_base_coords * agents_frame["extent"][:, None, :2]], one agent. *)
Definition corners_m (a : Agent) : list Point2 :=
  map (λ p : Point2, (p.1 * (extent a).1.1, p.2 * (extent a).1.2)%R)
      corners_base_coords.

(** [((c, s), (-s, c))] for one agent. *)
Definition rotation_m (a : Agent) : Point2 * Point2 :=
  ((cos (yaw a), sin (yaw a)), (- sin (yaw a), cos (yaw a)))%R.

(** One row of [corners_m @ rotation_m]. *)
Definition matmul_row (p : Point2) (m : Point2 * Point2) : Point2 :=
  (p.1 * m.1.1 + p.2 * m.2.1, p.1 * m.1.2 + p.2 * m.2.2)%R.

Definition box_of (a : Agent) : list Point2 :=
  map (λ p, let q := matmul_row p (rotation_m a) in
            (q.1 + (centroid a).1, q.2 + (centroid a).2)%R)
      (corners_m a).

(** [corners_m @ rotation_m + agents_frame["centroid"][:, None, :2]]. *)
Definition box_world_coords (agents_frame : list Agent) : list (list Point2) :=
  map box_of agents_frame.

(** *** The lane colour of [_get_frame_data] *)

(** [for tl_id in ...: lane_colour = COLORS[mapAPI.get_color_for_face(tl_id)]] *)
Fixpoint lane_colour_loop (mapAPI : MapAPI) (lane_colour : string)
    (tl_ids : list string) : result string :=
  match tl_ids with
  | [] => Ok lane_colour
  | tl_id :: rest =>
      name ← get_color_for_face mapAPI tl_id;
      colour ← np.dict_get COLORS name;
      lane_colour_loop mapAPI colour rest
  end.

Section externals.

(** [get_ego_as_agent] ([l5kit.rasterization.box_rasterizer]) and
    [indices_in_bounds] ([l5kit.rasterization.semantic_rasterizer]) and the
    table [PERCEPTION_LABELS] ([l5kit.data.labels]) are arguments. *)
Variable get_ego_as_agent : Frame → Agent.
Variable indices_in_bounds : Point2 → list Bounds → R → list nat.
Variable PERCEPTION_LABELS : list string.

(** The order in which Python iterates over a set is not specified: it is an
    argument too, any enumeration of the set. *)
Variable set_iter : gset string → list string.

Definition lane_colour_of (mapAPI : MapAPI) (lane_tl_ids active_tl_ids : gset string)
  : result string :=
  lane_colour_loop mapAPI "gray" (set_iter (lane_tl_ids ∩ active_tl_ids)).

(** The body of [for idx, lane_idx in enumerate(lane_indices)]. *)
Definition lane_vis (mapAPI : MapAPI) (active_tl_ids : gset string) (lane_idx : nat)
  : result LaneVisualisation :=
  lane_id ← np.getitem (ids (bounds_info_lanes mapAPI)) lane_idx;
  tl ← get_lane_traffic_control_ids mapAPI lane_id;
  lane_colour ← lane_colour_of mapAPI (list_to_set tl) active_tl_ids;
  lane_coords ← get_lane_coords mapAPI lane_id;
  let left_lane := map xy (xyz_left lane_coords) in
  let right_lane := map xy (rev (xyz_right lane_coords)) in
  mret {| lane_xs := map fst left_lane ++ map fst right_lane;
          lane_ys := map snd left_lane ++ map snd right_lane;
          lane_color := lane_colour |}.

(** The body of [for idx in crosswalk_indices]. *)
Definition crosswalk_vis (mapAPI : MapAPI) (idx : nat) : result CWVisualisation :=
  cw_id ← np.getitem (ids (bounds_info_crosswalks mapAPI)) idx;
  crosswalk ← get_crosswalk_coords mapAPI cw_id;
  mret {| cw_xs := map (λ p : Point3, p.1.1) crosswalk;
          cw_ys := map (λ p : Point3, p.1.2) crosswalk;
          cw_color := "yellow" |}.

(** The body of [for agent, box_coord in zip(agents_frame, box_world_coords)]. *)
Definition agent_vis (ab : Agent * list Point2) : result AgentVisualisation :=
  let '(agent, box_coord) := ab in
  label_index ← np.argmax (label_probabilities agent);
  type ← np.getitem PERCEPTION_LABELS label_index;
  prob ← np.getitem (label_probabilities agent) label_index;
  mret {| agent_xs := map fst box_coord;
          agent_ys := map snd box_coord;
          agent_color := default "#1F77B4" (COLORS !! type);
          agent_track_id := track_id agent;
          agent_type := type;
          agent_prob := prob |}.

Definition _get_frame_data (mapAPI : MapAPI) (frame : Frame)
    (agents_frame : list Agent) (tls_frame : list TLFace) : result FrameVisualisation :=
  let ego_xy := xy (ego_translation frame) in
  (* lanes *)
  let lane_indices :=
    indices_in_bounds ego_xy (bounds (bounds_info_lanes mapAPI)) 50%R in
  let active_tl_ids : gset string :=
    list_to_set (map face_id (filter_tl_faces_by_status tls_frame ACTIVE)) in
  lanes_vis ← mapM (lane_vis mapAPI active_tl_ids) lane_indices;
  (* crosswalks *)
  let crosswalk_indices :=
    indices_in_bounds ego_xy (bounds (bounds_info_crosswalks mapAPI)) 50%R in
  crosswalks_vis ← mapM (crosswalk_vis mapAPI) crosswalk_indices;
  (* ego and agents *)
  let agents_frame := get_ego_as_agent frame :: agents_frame in
  match box_world_coords agents_frame, agents_frame with
  | ego_box :: boxes, ego_agent :: agents_frame =>
      let ego_vis :=
        {| ego_xs := map fst ego_box;
           ego_ys := map snd ego_box;
           ego_color := "red";
           center_x := (centroid ego_agent).1;
           center_y := (centroid ego_agent).2 |} in
      agents_vis ← mapM agent_vis (zip agents_frame boxes);
      mret {| ego := ego_vis;
              agents_vis := agents_vis;
              lanes := lanes_vis;
              crosswalks := crosswalks_vis;
              trajectories := [] |}
  | _, _ => Raise IndexError
  end.

(** *** [zarr_to_visualizer_scene] *)

(** The body of [for frame_idx in range(len(frames))]. *)
Definition frame_vis_at (mapAPI : MapAPI) (with_trajectories : bool)
    (frames : list Frame) (agents_frames : list (list Agent))
    (tls_frames : list (list TLFace)) (frame_idx : nat) : result FrameVisualisation :=
  frame ← np.getitem frames frame_idx;
  tls_frame ← np.getitem tls_frames frame_idx;
  agents_frame ← np.getitem agents_frames frame_idx;
  let agents_frame := filter_agents_by_labels agents_frame 0.1%R in
  frame_vis ← _get_frame_data mapAPI frame agents_frame tls_frame;
  if with_trajectories then
    let traj_vis :=
      _get_frame_trajectories frames agents_frames (map track_id agents_frame)
                              frame_idx in
    mret {| ego := ego frame_vis;
            agents_vis := agents_vis frame_vis;
            lanes := lanes frame_vis;
            crosswalks := crosswalks frame_vis;
            trajectories := traj_vis |}
  else mret frame_vis.

Definition zarr_to_visualizer_scene (scene_dataset : ChunkedDataset)
    (mapAPI : MapAPI) (with_trajectories : bool) : result (list FrameVisualisation) :=
  if decide (length (scenes scene_dataset) ≠ 1) then Raise ValueError
  else
    let frames := frames scene_dataset in
    let agents_frames := filter_agents_by_frames frames (agents scene_dataset) in
    let tls_frames := filter_tl_faces_by_frames frames (tl_faces scene_dataset) in
    mapM (frame_vis_at mapAPI with_trajectories frames agents_frames tls_frames)
         (seq 0 (length frames)).

End externals.

End zarr_utils.

(** ** [reward.py] *)

Module reward.

(** Of a simulation output, [get_reward] reads the scene identifier only. *)
Record SimulationOutputCLE : Type := {
  scene_id : Z;
}.

(** The attributes of a [CLEReward] other than its metric set, with the
    types of the constructor's arguments. *)
Record CLEReward : Type := {
  reward_prefix : string;
  use_yaw : option bool;
  yaw_weight : option R;
  enable_clip : bool;
  rew_clip_thresh : R;
}.

(** [if self.use_yaw]: [None] is false. *)
Definition truthy (b : option bool) : bool := default false b.

Section metric_set.

(** The metric set ([l5kit.cle.metric_set]) is an argument: its state, what
    [evaluate] does to it, and the table [evaluator.scene_metric_results]
    read from it (scene id, then metric name, then one value per frame). *)
Variable MetricSet : Type.
Variable evaluate : MetricSet → list SimulationOutputCLE → result MetricSet.
Variable scene_metric_results : MetricSet → gmap Z (gmap string (list R)).

(** [CLEReward.get_reward]: the returned dictionary and the metric set after
    the call. *)
Definition get_reward (self : CLEReward) (metric_set : MetricSet) (frame_index : Z)
    (simulated_outputs : list SimulationOutputCLE)
  : result (gmap string R * MetricSet) :=
  first ← np.getitem simulated_outputs 0;
  let scene_id := scene_id first in
  metric_set ← evaluate metric_set simulated_outputs;
  scene_metrics ← np.dict_get (scene_metric_results metric_set) scene_id;
  displacement ← np.dict_get scene_metrics "displacement_error_l2";
  dist_error ← np.getitem_int displacement (frame_index + 1);
  yaw_errors ← np.dict_get scene_metrics "yaw_error_closest_angle";
  yaw_error_at ← np.getitem_int yaw_errors (frame_index + 1);
  weight ← match yaw_weight self with
           | Some w => Ok w
           | None => Raise TypeError
           end;
  let yaw_error := (weight * yaw_error_at)%R in
  let dist_reward :=
    if enable_clip self then np.max (- rew_clip_thresh self) (- dist_error)
    else (- dist_error)%R in
  let yaw_reward :=
    if truthy (use_yaw self) then (0 - yaw_error)%R else 0%R in
  let total_reward := (dist_reward + yaw_reward)%R in
  let reward_dict : gmap string R :=
    list_to_map [ ("total", total_reward);
                  ("distance", dist_reward);
                  ("yaw", yaw_reward) ] in
  mret (reward_dict, metric_set).

End metric_set.

End reward.

(** *** The constructor and [reset] of [CLEReward] *)

Module reward_object.
Import reward.

Section metric_set.

(** The metric set is an argument, as for [get_reward]: its state, the set
    [L5GymCLEMetricSet()] built when the caller gives none, and what
    [metric_set.reset()] does. *)
Variable MetricSet : Type.
Variable L5GymCLEMetricSet : MetricSet.
Variable metric_set_reset : MetricSet → MetricSet.

(** [CLEReward.__init__]: the attributes and the metric set of the new
    object. *)
Definition __init__ (reward_prefix : string) (metric_set : option MetricSet)
    (enable_clip : bool) (rew_clip_thresh : R)
    (use_yaw : option bool) (yaw_weight : option R) : CLEReward * MetricSet :=
  ({| reward_prefix := reward_prefix;
      use_yaw := use_yaw;
      yaw_weight := yaw_weight;
      enable_clip := enable_clip;
      rew_clip_thresh := rew_clip_thresh |},
   match metric_set with
   | Some m => m
   | None => L5GymCLEMetricSet
   end).

(** [CLEReward()]: every argument at its default. *)
Definition default_reward : CLEReward * MetricSet :=
  __init__ "CLE" None true 15%R (Some true) (Some 20%R).

(** [CLEReward.reset]: the metric set after the call. *)
Definition reset (self : CLEReward) (metric_set : MetricSet) : MetricSet :=
  metric_set_reset metric_set.

End metric_set.

End reward_object.

(** ** [visualiser.py]: [get_frame_data] *)

Module visualiser.
Import l5kit.

(** [dict(x=[], y=[])]: one entry of each list per polygon. *)
Record XYDict : Type := {
  dict_x : list (list R);
  dict_y : list (list R);
}.

(** [dict(x=[], y=[], name=[], p=[], id=[])] *)
Record AgentsDict : Type := {
  agents_x : list (list R);
  agents_y : list (list R);
  agents_name : list string;
  agents_p : list R;
  agents_id : list Z;
}.

Section externals.

(** The geometry helpers of [l5kit.geometry] and [np.linalg.inv] are
    arguments, over some type of matrices.  [transform_points] is called on
    arrays of points and, once, on the array of boxes: these are its two
    behaviours.  Inverting and transforming may raise. *)
Variable Matrix : Type.
Variable rotation33_as_yaw : list (list R) → R.
Variable compute_agent_pose : Point2 → R → Matrix.
Variable linalg_inv : Matrix → result Matrix.
Variable transform_points : list Point2 → Matrix → result (list Point2).
Variable transform_boxes : list (list Point2) → Matrix → result (list (list Point2)).

Variable get_ego_as_agent : Frame → Agent.
Variable indices_in_bounds : Point2 → list Bounds → R → list nat.
Variable PERCEPTION_LABELS : list string.

(** The body of [for idx, lane_idx in enumerate(lane_indices)]: the two
    arrays appended to [lanes_dict["x"]] and [lanes_dict["y"]]. *)
Definition lane_xy (mapAPI : MapAPI) (agent_from_world : Matrix) (lane_idx : nat)
  : result (list R * list R) :=
  lane_id ← np.getitem (ids (bounds_info_lanes mapAPI)) lane_idx;
  lane_coords ← get_lane_coords mapAPI lane_id;
  let left_lane := map xy (xyz_left lane_coords) in
  let right_lane := map xy (rev (xyz_right lane_coords)) in
  left_lane ← transform_points left_lane agent_from_world;
  right_lane ← transform_points right_lane agent_from_world;
  mret (map fst left_lane ++ map fst right_lane,
        map snd left_lane ++ map snd right_lane).

(** The body of [for idx in crosswalk_indices]. *)
Definition crosswalk_xy (mapAPI : MapAPI) (agent_from_world : Matrix) (idx : nat)
  : result (list R * list R) :=
  cw_id ← np.getitem (ids (bounds_info_crosswalks mapAPI)) idx;
  crosswalk ← get_crosswalk_coords mapAPI cw_id;
  crosswalk ← transform_points (map xy crosswalk) agent_from_world;
  mret (map fst crosswalk, map snd crosswalk).

Definition get_frame_data (mapAPI : MapAPI) (frame : Frame) (agents : list Agent)
  : result (XYDict * XYDict * XYDict * AgentsDict) :=
  let ego_xy := xy (ego_translation frame) in
  let ego_yaw := rotation33_as_yaw (ego_rotation frame) in
  let world_from_agent := compute_agent_pose ego_xy ego_yaw in
  agent_from_world ← linalg_inv world_from_agent;
  (* lanes *)
  let lane_indices :=
    indices_in_bounds ego_xy (bounds (bounds_info_lanes mapAPI)) 50%R in
  lanes ← mapM (lane_xy mapAPI agent_from_world) lane_indices;
  let lanes_dict := {| dict_x := map fst lanes; dict_y := map snd lanes |} in
  (* crosswalks *)
  let crosswalk_indices :=
    indices_in_bounds ego_xy (bounds (bounds_info_crosswalks mapAPI)) 50%R in
  cws ← mapM (crosswalk_xy mapAPI agent_from_world) crosswalk_indices;
  let crosswalks_dict := {| dict_x := map fst cws; dict_y := map snd cws |} in
  (* ego and agent cars *)
  let agents := filter_agents_by_labels agents 0.1%R in
  let agents := get_ego_as_agent frame :: agents in
  let box_world_coords := zarr_utils.box_world_coords agents in
  box_agent_coords ← transform_boxes box_world_coords agent_from_world;
  ego_box ← np.getitem box_agent_coords 0;
  let ego_dict := {| dict_x := [map fst ego_box]; dict_y := [map snd ego_box] |} in
  let agents := drop 1 agents in
  let box_agent_coords := drop 1 box_agent_coords in
  label_indices ← mapM np.argmax (map label_probabilities agents);
  names ← mapM (np.getitem PERCEPTION_LABELS) label_indices;
  probs ← mapM (λ ak : Agent * nat, np.getitem (label_probabilities ak.1) ak.2)
               (zip agents label_indices);
  mret (lanes_dict, crosswalks_dict, ego_dict,
        {| agents_x := map (map fst) box_agent_coords;
           agents_y := map (map snd) box_agent_coords;
           agents_name := names;
           agents_p := probs;
           agents_id := map track_id agents |}).

End externals.

End visualiser.

(** ** Derived notions used in the statements *)

(** The colour one control point gives: the name of its face colour, looked
    up in the fixed table. *)
Definition colour_of_face (mapAPI : MapAPI) (tl_id : string) : result string :=
  get_color_for_face mapAPI tl_id ≫= np.dict_get zarr_utils.COLORS.

(** A frame visualisation with its trajectories removed. *)
Definition without_trajectories (fv : FrameVisualisation) : FrameVisualisation :=
  {| ego := ego fv;
     agents_vis := agents_vis fv;
     lanes := lanes fv;
     crosswalks := crosswalks fv;
     trajectories := [] |}.

(** A frame visualisation with the given trajectories. *)
Definition with_trajectories_of (trajs : list TrajectoryVisualisation)
    (fv : FrameVisualisation) : FrameVisualisation :=
  {| ego := ego fv;
     agents_vis := agents_vis fv;
     lanes := lanes fv;
     crosswalks := crosswalks fv;
     trajectories := trajs |}.

(** The positions of a trajectory, as points. *)
Definition traj_points (t : TrajectoryVisualisation) : list Point2 :=
  zip (traj_xs t) (traj_ys t).

(** The position of the selected entity ([None] is the ego vehicle) in one
    frame of the window, when it is there. *)
Definition visible_position (selected : option Z) (step : Frame * list Agent)
  : option Point2 :=
  match selected with
  | None => Some (xy (ego_translation step.1))
  | Some tid => centroid <$> head (l5kit.filter_agents_by_track_id step.2 tid)
  end.

(** The track identifier occurs in none of the given frames. *)
Definition never_appears (tid : Z) (window : list (list Agent)) : Prop :=
  Forall (Forall (λ a, track_id a ≠ tid)) window.

(** Every entry of the metric [name], in every scene of the table,
    satisfies [P]. *)
Definition metric_entries (P : R → Prop) (name : string)
    (table : gmap Z (gmap string (list R))) : Prop :=
  ∀ sid scene_metrics xs,
    table !! sid = Some scene_metrics → scene_metrics !! name = Some xs →
    Forall P xs.

(** The polygons of a frame visualisation are well formed: the ego and the
    agents have four xs and four ys, and every lane, crosswalk and trajectory
    has as many xs as ys. *)
Definition well_formed_frame (fv : FrameVisualisation) : Prop :=
  (length (ego_xs (ego fv)) = 4 ∧ length (ego_ys (ego fv)) = 4)%nat ∧
  Forall (λ av, length (agent_xs av) = 4 ∧ length (agent_ys av) = 4)%nat
         (agents_vis fv) ∧
  Forall (λ lv, length (lane_xs lv) = length (lane_ys lv)) (lanes fv) ∧
  Forall (λ cw, length (cw_xs cw) = length (cw_ys cw)) (crosswalks fv) ∧
  Forall (λ t, length (traj_xs t) = length (traj_ys t)) (trajectories fv).

(** Squared distance and dot product in the plane. *)
Definition dist2 (p q : Point2) : R :=
  ((q.1 - p.1) * (q.1 - p.1) + (q.2 - p.2) * (q.2 - p.2))%R.

Definition dot (p q r : Point2) : R :=
  ((q.1 - p.1) * (r.1 - q.1) + (q.2 - p.2) * (r.2 - q.2))%R.

(** ** A small scene

    Concrete data on which the definitions are run: one scene of two frames,
    a car (track 7) seen in both frames and a weakly detected object
    (track 9) in the first, one lane controlled by an active red face, and
    one crosswalk. *)

Module sample.

(** A stand-in for [get_ego_as_agent]: the ego vehicle at the position of
    the frame, 4 by 2, not rotated. *)
Definition get_ego_as_agent (frame : Frame) : Agent :=
  {| centroid := xy (ego_translation frame);
     extent := (4, 2, 2)%R;
     yaw := 0%R;
     track_id := 0;
     label_probabilities := [] |}.

(** A stand-in for [indices_in_bounds]: the positions of the boxes that,
    grown by [half_extent], contain the centre. *)
Definition indices_in_bounds (center : Point2) (bounds : list Bounds)
    (half_extent : R) : list nat :=
  map fst
    (filter (λ ib : nat * Bounds,
               (ib.2.1.1 - half_extent < center.1)%R ∧
               (ib.2.1.2 - half_extent < center.2)%R ∧
               (center.1 < ib.2.2.1 + half_extent)%R ∧
               (center.2 < ib.2.2.2 + half_extent)%R)
            (imap (λ i b, (i, b)) bounds)).

(** A table of three labels. *)
Definition PERCEPTION_LABELS : list string :=
  [ "PERCEPTION_LABEL_NOT_SET"; "PERCEPTION_LABEL_UNKNOWN"; "PERCEPTION_LABEL_CAR" ].

(** One iteration order of sets. *)
Definition set_iter (s : gset string) : list string := elements s.

Definition identity33 : list (list R) :=
  [ [1; 0; 0]; [0; 1; 0]; [0; 0; 1] ]%R.

Definition frame0 : Frame :=
  {| timestamp := 0;
     agent_index_interval := (0, 2)%nat;
     traffic_light_faces_index_interval := (0, 1)%nat;
     ego_translation := (10, 20, 0)%R;
     ego_rotation := identity33 |}.

Definition frame1 : Frame :=
  {| timestamp := 1;
     agent_index_interval := (2, 3)%nat;
     traffic_light_faces_index_interval := (1, 1)%nat;
     ego_translation := (11, 20, 0)%R;
     ego_rotation := identity33 |}.

Definition car0 : Agent :=
  {| centroid := (30, 40)%R;
     extent := (6, 2, 1)%R;
     yaw := 0%R;
     track_id := 7;
     label_probabilities := [0; 0; 1]%R |}.

Definition ghost : Agent :=
  {| centroid := (0, 0)%R;
     extent := (1, 1, 1)%R;
     yaw := 0%R;
     track_id := 9;
     label_probabilities := [0; 0.05; 0]%R |}.

Definition car1 : Agent :=
  {| centroid := (31, 40)%R;
     extent := (6, 2, 1)%R;
     yaw := 0%R;
     track_id := 7;
     label_probabilities := [0; 0; 1]%R |}.

Definition face : TLFace :=
  {| face_id := "f1";
     traffic_light_id := "t1";
     traffic_light_face_status := ACTIVE |}.

Definition scene : Scene :=
  {| frame_index_interval := (0, 2)%nat; host := "host-a" |}.

Definition dataset : ChunkedDataset :=
  {| scenes := [scene];
     frames := [frame0; frame1];
     agents := [car0; ghost; car1];
     tl_faces := [face] |}.

(** The same tables under two scenes. *)
Definition two_scenes : ChunkedDataset :=
  {| scenes := [scene; scene];
     frames := [frame0; frame1];
     agents := [car0; ghost; car1];
     tl_faces := [face] |}.

Definition mapAPI : MapAPI :=
  {| bounds_info_lanes :=
       {| bounds := [ ((0, 0), (20, 30))%R ]; ids := ["lane-a"] |};
     bounds_info_crosswalks :=
       {| bounds := [ ((5, 5), (6, 6))%R ]; ids := ["cw-a"] |};
     get_lane_traffic_control_ids := λ _, Ok ["f1"; "f2"];
     get_color_for_face := λ _, Ok "RED";
     get_lane_coords := λ _,
       Ok {| xyz_left := [ (0, 0, 0); (0, 10, 0) ]%R;
             xyz_right := [ (3, 0, 0); (3, 10, 0) ]%R |};
     get_crosswalk_coords := λ _, Ok [ (5, 5, 0); (6, 5, 0); (6, 6, 0) ]%R |}.

(** A map whose only lane is controlled by a face of a colour that has no
    entry in [COLORS]. *)
Definition mapAPI_blue : MapAPI :=
  {| bounds_info_lanes := bounds_info_lanes mapAPI;
     bounds_info_crosswalks := bounds_info_crosswalks mapAPI;
     get_lane_traffic_control_ids := get_lane_traffic_control_ids mapAPI;
     get_color_for_face := λ _, Ok "BLUE";
     get_lane_coords := get_lane_coords mapAPI;
     get_crosswalk_coords := get_crosswalk_coords mapAPI |}.

(** What [_get_frame_data] builds for [frame0] and [car0]. *)
Definition frame0_vis : FrameVisualisation :=
  {| ego := {| ego_xs := [10 - 4 / 2; 10 - 4 / 2; 10 + 4 / 2; 10 + 4 / 2]%R;
               ego_ys := [20 - 2 / 2; 20 + 2 / 2; 20 + 2 / 2; 20 - 2 / 2]%R;
               ego_color := "red";
               center_x := 10%R;
               center_y := 20%R |};
     agents_vis :=
       [ {| agent_xs := [30 - 6 / 2; 30 - 6 / 2; 30 + 6 / 2; 30 + 6 / 2]%R;
            agent_ys := [40 - 2 / 2; 40 + 2 / 2; 40 + 2 / 2; 40 - 2 / 2]%R;
            agent_color := "#1F77B4";
            agent_track_id := 7;
            agent_type := "PERCEPTION_LABEL_CAR";
            agent_prob := 1%R |} ];
     lanes :=
       [ {| lane_xs := [0; 0; 3; 3]%R;
            lane_ys := [0; 10; 10; 0]%R;
            lane_color := "#FF3300" |} ];
     crosswalks :=
       [ {| cw_xs := [5; 6; 6]%R;
            cw_ys := [5; 5; 6]%R;
            cw_color := "yellow" |} ];
     trajectories := [] |}.

(** What [_get_frame_data] builds for [frame1] and [car1]: no face is active
    in that frame. *)
Definition frame1_vis : FrameVisualisation :=
  {| ego := {| ego_xs := [11 - 4 / 2; 11 - 4 / 2; 11 + 4 / 2; 11 + 4 / 2]%R;
               ego_ys := [20 - 2 / 2; 20 + 2 / 2; 20 + 2 / 2; 20 - 2 / 2]%R;
               ego_color := "red";
               center_x := 11%R;
               center_y := 20%R |};
     agents_vis :=
       [ {| agent_xs := [31 - 6 / 2; 31 - 6 / 2; 31 + 6 / 2; 31 + 6 / 2]%R;
            agent_ys := [40 - 2 / 2; 40 + 2 / 2; 40 + 2 / 2; 40 - 2 / 2]%R;
            agent_color := "#1F77B4";
            agent_track_id := 7;
            agent_type := "PERCEPTION_LABEL_CAR";
            agent_prob := 1%R |} ];
     lanes :=
       [ {| lane_xs := [0; 0; 3; 3]%R;
            lane_ys := [0; 10; 10; 0]%R;
            lane_color := "gray" |} ];
     crosswalks :=
       [ {| cw_xs := [5; 6; 6]%R;
            cw_ys := [5; 5; 6]%R;
            cw_color := "yellow" |} ];
     trajectories := [] |}.

(** A reward with the default settings, and a metric set that holds a table
    computed beforehand: scene 3, two frames. *)
Definition cle_reward : reward.CLEReward :=
  {| reward.reward_prefix := "CLE";
     reward.use_yaw := Some true;
     reward.yaw_weight := Some 20%R;
     reward.enable_clip := true;
     reward.rew_clip_thresh := 15%R |}.

Definition metric_table : gmap Z (gmap string (list R)) :=
  {[ 3%Z := list_to_map [ ("displacement_error_l2", [0; 20]%R);
                          ("yaw_error_closest_angle", [0; 0.1]%R) ] ]}.

Definition evaluate (metric_set : gmap Z (gmap string (list R)))
    (outputs : list reward.SimulationOutputCLE)
  : result (gmap Z (gmap string (list R))) :=
  Ok metric_set.

Definition scene_metric_results (metric_set : gmap Z (gmap string (list R)))
  : gmap Z (gmap string (list R)) :=
  metric_set.

Definition simulated_outputs : list reward.SimulationOutputCLE :=
  [ {| reward.scene_id := 3 |} ].

Definition reward_dict : gmap string R :=
  list_to_map [ ("total", (- 15 + - 2)%R); ("distance", (- 15)%R); ("yaw", (- 2)%R) ].

(** An agent at a quarter turn. *)
Definition turned : Agent :=
  {| centroid := (30, 40)%R;
     extent := (6, 2, 1)%R;
     yaw := (PI / 2)%R;
     track_id := 8;
     label_probabilities := [0; 0; 1]%R |}.

(** The scene converted with trajectories: the frames as above, each with
    the trajectories of track 7 and of ego from that frame on. *)
Definition scene_vis_with_trajectories : list FrameVisualisation :=
  let frames := frames dataset in
  let agents_frames := l5kit.filter_agents_by_frames frames (agents dataset) in
  [ with_trajectories_of
      (zarr_utils._get_frame_trajectories frames agents_frames [7%Z] 0) frame0_vis;
    with_trajectories_of
      (zarr_utils._get_frame_trajectories frames agents_frames [7%Z] 1) frame1_vis ].

(** Stand-ins for the geometry helpers of [visualiser.py]: the ego frame is
    the world frame, so that every transform is the identity. *)
Definition rotation33_as_yaw (rotation : list (list R)) : R := 0%R.
Definition compute_agent_pose (position : Point2) (yaw : R) : unit := tt.
Definition linalg_inv (m : unit) : result unit := Ok m.
Definition transform_points (points : list Point2) (m : unit)
  : result (list Point2) := Ok points.
Definition transform_boxes (boxes : list (list Point2)) (m : unit)
  : result (list (list Point2)) := Ok boxes.

(** What [get_frame_data] of [visualiser.py] returns for [frame0] and the
    two agents of that frame. *)
Definition old_frame0
  : visualiser.XYDict * visualiser.XYDict * visualiser.XYDict * visualiser.AgentsDict :=
  ({| visualiser.dict_x := [ [0; 0; 3; 3]%R ];
      visualiser.dict_y := [ [0; 10; 10; 0]%R ] |},
   {| visualiser.dict_x := [ [5; 6; 6]%R ];
      visualiser.dict_y := [ [5; 5; 6]%R ] |},
   {| visualiser.dict_x := [ [10 - 4 / 2; 10 - 4 / 2; 10 + 4 / 2; 10 + 4 / 2]%R ];
      visualiser.dict_y := [ [20 - 2 / 2; 20 + 2 / 2; 20 + 2 / 2; 20 - 2 / 2]%R ] |},
   {| visualiser.agents_x := [ [30 - 6 / 2; 30 - 6 / 2; 30 + 6 / 2; 30 + 6 / 2]%R ];
      visualiser.agents_y := [ [40 - 2 / 2; 40 + 2 / 2; 40 + 2 / 2; 40 - 2 / 2]%R ];
      visualiser.agents_name := [ "PERCEPTION_LABEL_CAR" ];
      visualiser.agents_p := [ 1%R ];
      visualiser.agents_id := [ 7%Z ] |}).

(** A reward that does not use the yaw and was given no weight for it. *)
Definition reward_without_weight : reward.CLEReward :=
  {| reward.reward_prefix := "CLE";
     reward.use_yaw := Some false;
     reward.yaw_weight := None;
     reward.enable_clip := true;
     reward.rew_clip_thresh := 15%R |}.

End sample.

(** * Properties *)

(** ** The error monad *)

Section result_lemmas.
Context {A B : Type}.
Implicit Types (f : A → result B) (l : list A) (k : list B).

Lemma bind_Ok {C} (m : result A) (g : A → result C) (c : C) :
  m ≫= g = Ok c ↔ ∃ a, m = Ok a ∧ g a = Ok c.
Proof.
  destruct m as [a|e]; simpl; split.
  - intros Hg. by exists a.
  - by intros (a' & [= <-] & Hg).
  - discriminate.
  - by intros (a' & ? & _).
Qed.

Lemma mapM_Ok_1 f l k : mapM f l = Ok k → Forall2 (λ x y, f x = Ok y) l k.
Proof.
  revert k. induction l as [|x l IH]; intros k; simpl.
  - intros [= <-]. constructor.
  - destruct (f x) as [y|e] eqn:Hfx; simpl; [|discriminate].
    destruct (mapM f l) as [k'|e]; simpl; [|discriminate].
    intros [= <-]. constructor; auto.
Qed.

Lemma mapM_Ok_2 f l k : Forall2 (λ x y, f x = Ok y) l k → mapM f l = Ok k.
Proof.
  induction 1 as [|x y l k Hfx _ IH]; simpl; [done|].
  by rewrite Hfx; simpl; rewrite IH.
Qed.

Lemma mapM_Ok f l k : mapM f l = Ok k ↔ Forall2 (λ x y, f x = Ok y) l k.
Proof. split; [apply mapM_Ok_1 | apply mapM_Ok_2]. Qed.

Lemma mapM_Ok_length f l k : mapM f l = Ok k → length k = length l.
Proof. intros H%mapM_Ok_1. symmetry. by eapply Forall2_length. Qed.

Lemma mapM_is_Ok f l : Forall (λ x, is_Ok (f x)) l → is_Ok (mapM f l).
Proof.
  induction 1 as [|x l [y Hy] _ [k Hk]]; simpl.
  - by exists [].
  - exists (y :: k). by rewrite Hy; simpl; rewrite Hk.
Qed.

Lemma mapM_Raise f l e :
  mapM f l = Raise e → Exists (λ x, f x = Raise e) l.
Proof.
  induction l as [|x l IH]; simpl; [discriminate|].
  destruct (f x) as [y|e'] eqn:Hfx; simpl.
  - destruct (mapM f l) as [k|e'']; simpl; [discriminate|].
    intros [= <-]. right. by apply IH.
  - intros [= <-]. by left.
Qed.

Lemma mapM_nil f : mapM f [] = Ok [].
Proof. done. Qed.

End result_lemmas.

(** A loop body post-composed with a total step is the loop post-composed
    with the step on every element. *)
Lemma mapM_fmap {A B C} (f : A → result B) (h : B → C) (g : A → result C) l :
  (∀ x, g x = h <$> f x) → mapM g l = map h <$> mapM f l.
Proof.
  intros Hg. induction l as [|x l IH]; simpl; [done|].
  rewrite Hg, IH. destruct (f x); simpl; [|done]. by destruct (mapM f l).
Qed.

(** ** The geometry of the boxes *)

(** Equality of lists of points, coordinate by coordinate. *)
Ltac points_eq :=
  repeat match goal with
         | |- _ :: _ = _ :: _ => f_equal
         | |- (_, _) = (_, _) => f_equal
         end.

Section geometry.
Import zarr_utils.
Local Open Scope R_scope.

Lemma box_of_length a : length (box_of a) = 4%nat.
Proof. done. Qed.

(** The four corners, written out. *)
Lemma box_of_corners a :
  let L := (extent a).1.1 in
  let W := (extent a).1.2 in
  let c := cos (yaw a) in
  let s := sin (yaw a) in
  let cx := (centroid a).1 in
  let cy := (centroid a).2 in
  box_of a =
    [ (-1 * 0.5 * L * c + -1 * 0.5 * W * - s + cx, -1 * 0.5 * L * s + -1 * 0.5 * W * c + cy);
      (-1 * 0.5 * L * c + 1 * 0.5 * W * - s + cx, -1 * 0.5 * L * s + 1 * 0.5 * W * c + cy);
      (1 * 0.5 * L * c + 1 * 0.5 * W * - s + cx, 1 * 0.5 * L * s + 1 * 0.5 * W * c + cy);
      (1 * 0.5 * L * c + -1 * 0.5 * W * - s + cx, 1 * 0.5 * L * s + -1 * 0.5 * W * c + cy) ].
Proof. reflexivity. Qed.

Lemma box_of_yaw_zero a :
  yaw a = 0 →
  box_of a =
    [ ((centroid a).1 - (extent a).1.1 / 2, (centroid a).2 - (extent a).1.2 / 2);
      ((centroid a).1 - (extent a).1.1 / 2, (centroid a).2 + (extent a).1.2 / 2);
      ((centroid a).1 + (extent a).1.1 / 2, (centroid a).2 + (extent a).1.2 / 2);
      ((centroid a).1 + (extent a).1.1 / 2, (centroid a).2 - (extent a).1.2 / 2) ].
Proof.
  intros Hyaw. rewrite box_of_corners. cbv zeta. rewrite Hyaw, sin_0, cos_0.
  points_eq; lra.
Qed.

Lemma box_of_mean_x a : np.mean (map fst (box_of a)) = (centroid a).1.
Proof.
  rewrite box_of_corners. cbv zeta. unfold np.mean, np.sum. simpl. field.
Qed.

Lemma box_of_mean_y a : np.mean (map snd (box_of a)) = (centroid a).2.
Proof.
  rewrite box_of_corners. cbv zeta. unfold np.mean, np.sum. simpl. field.
Qed.

Lemma box_world_coords_lookup agents_frame i :
  box_world_coords agents_frame !! i = box_of <$> agents_frame !! i.
Proof. unfold box_world_coords. apply list_lookup_fmap. Qed.

End geometry.

(** ** Slicing the tables by frame *)

Section partition_lemmas.
Import l5kit.

Lemma filter_agents_by_frames_length frames agents :
  length (filter_agents_by_frames frames agents) = length frames.
Proof. unfold filter_agents_by_frames. apply length_map. Qed.

Lemma filter_tl_faces_by_frames_length frames tl_faces :
  length (filter_tl_faces_by_frames frames tl_faces) = length frames.
Proof. unfold filter_tl_faces_by_frames. apply length_map. Qed.

Lemma filter_agents_by_frames_lookup frames agents i frame :
  frames !! i = Some frame →
  filter_agents_by_frames frames agents !! i =
    Some (np.slice agents (agent_index_interval frame).1 (agent_index_interval frame).2).
Proof.
  intros Hi. unfold filter_agents_by_frames.
  change (map ?f ?l) with (f <$> l). by rewrite list_lookup_fmap, Hi.
Qed.

Lemma filter_tl_faces_by_frames_lookup frames tl_faces i frame :
  frames !! i = Some frame →
  filter_tl_faces_by_frames frames tl_faces !! i =
    Some (np.slice tl_faces (traffic_light_faces_index_interval frame).1
                            (traffic_light_faces_index_interval frame).2).
Proof.
  intros Hi. unfold filter_tl_faces_by_frames.
  change (map ?f ?l) with (f <$> l). by rewrite list_lookup_fmap, Hi.
Qed.

Lemma getitem_lookup {A} (xs : list A) i x : xs !! i = Some x → np.getitem xs i = Ok x.
Proof. intros Hi. unfold np.getitem. by rewrite Hi. Qed.

End partition_lemmas.

(** ** The lane colour loop *)

Section lane_colour.
Import zarr_utils.

Lemma lane_colour_loop_cons mapAPI c tl_id rest :
  lane_colour_loop mapAPI c (tl_id :: rest) =
    colour_of_face mapAPI tl_id ≫= λ c', lane_colour_loop mapAPI c' rest.
Proof.
  unfold colour_of_face. simpl.
  destruct (get_color_for_face mapAPI tl_id); simpl; [|done].
  by destruct (np.dict_get COLORS a).
Qed.

(** When every earlier control point has a colour, the loop ends with the
    colour of the last one (or with the exception it raises). *)
Lemma lane_colour_loop_last mapAPI c processed last_id :
  Forall (λ tl_id, is_Ok (colour_of_face mapAPI tl_id)) processed →
  lane_colour_loop mapAPI c (processed ++ [last_id]) = colour_of_face mapAPI last_id.
Proof.
  intros Hall. revert c.
  induction Hall as [|tl_id processed [c' Hc'] _ IH]; intros c.
  - rewrite app_nil_l, lane_colour_loop_cons.
    by destruct (colour_of_face mapAPI last_id).
  - rewrite <- app_comm_cons, lane_colour_loop_cons, Hc'. simpl. apply IH.
Qed.

(** An exception of an earlier control point ends the loop. *)
Lemma lane_colour_loop_raise mapAPI c before tl_id after e :
  Forall (λ tl_id, is_Ok (colour_of_face mapAPI tl_id)) before →
  colour_of_face mapAPI tl_id = Raise e →
  lane_colour_loop mapAPI c (before ++ tl_id :: after) = Raise e.
Proof.
  intros Hall Hraise. revert c.
  induction Hall as [|x before [c' Hc'] _ IH]; intros c.
  - by rewrite app_nil_l, lane_colour_loop_cons, Hraise.
  - rewrite <- app_comm_cons, lane_colour_loop_cons, Hc'. simpl. apply IH.
Qed.

End lane_colour.

(** ** Building one frame and converting a scene *)

Section conversion.
Import l5kit zarr_utils.

Context (get_ego_as_agent : Frame → Agent)
        (indices_in_bounds : Point2 → list Bounds → R → list nat)
        (PERCEPTION_LABELS : list string)
        (set_iter : gset string → list string).

Abbreviation get_frame_data :=
  (_get_frame_data get_ego_as_agent indices_in_bounds PERCEPTION_LABELS set_iter).
Abbreviation convert :=
  (zarr_to_visualizer_scene get_ego_as_agent indices_in_bounds PERCEPTION_LABELS set_iter).
Abbreviation convert_frame :=
  (frame_vis_at get_ego_as_agent indices_in_bounds PERCEPTION_LABELS set_iter).

(** The ego polygon of a frame. *)
Abbreviation ego_of frame :=
  {| ego_xs := map fst (box_of (get_ego_as_agent frame));
     ego_ys := map snd (box_of (get_ego_as_agent frame));
     ego_color := "red";
     center_x := (centroid (get_ego_as_agent frame)).1;
     center_y := (centroid (get_ego_as_agent frame)).2 |}.

(** [_get_frame_data] returns exactly when its three loops do, and then
    returns their results around the ego polygon, without trajectories. *)
Lemma get_frame_data_Ok mapAPI frame agents_frame tls_frame fv :
  get_frame_data mapAPI frame agents_frame tls_frame = Ok fv ↔
  ∃ lanes_vis crosswalks_vis avs,
    mapM (lane_vis set_iter mapAPI
            (list_to_set (map face_id (filter_tl_faces_by_status tls_frame ACTIVE))))
         (indices_in_bounds (xy (ego_translation frame))
                            (bounds (bounds_info_lanes mapAPI)) 50%R) = Ok lanes_vis ∧
    mapM (crosswalk_vis mapAPI)
         (indices_in_bounds (xy (ego_translation frame))
                            (bounds (bounds_info_crosswalks mapAPI)) 50%R)
      = Ok crosswalks_vis ∧
    mapM (agent_vis PERCEPTION_LABELS) (zip agents_frame (box_world_coords agents_frame))
      = Ok avs ∧
    fv = {| ego := ego_of frame;
            agents_vis := avs;
            lanes := lanes_vis;
            crosswalks := crosswalks_vis;
            trajectories := [] |}.
Proof.
  unfold _get_frame_data.
  change (box_world_coords (?a :: ?l)) with (box_of a :: box_world_coords l).
  cbv zeta. rewrite bind_Ok. split.
  - intros (lanes_vis & Hl & H). apply bind_Ok in H as (cws & Hc & H).
    apply bind_Ok in H as (avs & Ha & [= <-]). by exists lanes_vis, cws, avs.
  - intros (lanes_vis & cws & avs & Hl & Hc & Ha & ->).
    exists lanes_vis. split; [done|]. apply bind_Ok. exists cws. split; [done|].
    apply bind_Ok. by exists avs.
Qed.

Lemma get_frame_data_trajectories mapAPI frame agents_frame tls_frame fv :
  get_frame_data mapAPI frame agents_frame tls_frame = Ok fv →
  trajectories fv = [].
Proof. intros (? & ? & ? & _ & _ & _ & ->)%get_frame_data_Ok. done. Qed.

Lemma without_trajectories_id fv : trajectories fv = [] → without_trajectories fv = fv.
Proof. destruct fv. simpl. by intros ->. Qed.

(** The loop body at a position that holds a frame: the frame's own slices
    of the agent and traffic-signal tables, filtered at 0.1. *)
Lemma convert_frame_lookup mapAPI wt frames agents tl_faces i frame :
  frames !! i = Some frame →
  let agents_frame :=
    filter_agents_by_labels
      (np.slice agents (agent_index_interval frame).1 (agent_index_interval frame).2)
      0.1%R in
  let tls_frame :=
    np.slice tl_faces (traffic_light_faces_index_interval frame).1
                      (traffic_light_faces_index_interval frame).2 in
  convert_frame mapAPI wt frames (filter_agents_by_frames frames agents)
                (filter_tl_faces_by_frames frames tl_faces) i =
    (λ fd, if wt
           then with_trajectories_of
                  (_get_frame_trajectories frames (filter_agents_by_frames frames agents)
                     (map track_id agents_frame) i) fd
           else fd)
      <$> get_frame_data mapAPI frame agents_frame tls_frame.
Proof.
  intros Hi agents_frame tls_frame. unfold frame_vis_at.
  rewrite (getitem_lookup _ _ _ Hi).
  rewrite (getitem_lookup _ _ _ (filter_tl_faces_by_frames_lookup _ tl_faces _ _ Hi)).
  rewrite (getitem_lookup _ _ _ (filter_agents_by_frames_lookup _ agents _ _ Hi)).
  simpl. fold agents_frame tls_frame.
  destruct (get_frame_data mapAPI frame agents_frame tls_frame); simpl; [|done].
  by destruct wt.
Qed.

(** Without trajectories the loop body is the body with trajectories, the
    trajectories removed. *)
Lemma convert_frame_without mapAPI frames agents_frames tls_frames i :
  convert_frame mapAPI false frames agents_frames tls_frames i =
    without_trajectories <$> convert_frame mapAPI true frames agents_frames tls_frames i.
Proof.
  unfold frame_vis_at.
  destruct (np.getitem frames i) as [frame|]; simpl; [|done].
  destruct (np.getitem tls_frames i) as [tls_frame|]; simpl; [|done].
  destruct (np.getitem agents_frames i) as [agents_frame|]; simpl; [|done].
  destruct (get_frame_data _ _ _ _) as [fd|] eqn:Hfd; simpl; [|done].
  apply get_frame_data_trajectories in Hfd.
  destruct fd. simpl in Hfd. by subst.
Qed.

Lemma convert_single_scene ds mapAPI wt :
  length (scenes ds) = 1%nat →
  convert ds mapAPI wt =
    mapM (convert_frame mapAPI wt (frames ds)
            (filter_agents_by_frames (frames ds) (agents ds))
            (filter_tl_faces_by_frames (frames ds) (tl_faces ds)))
         (seq 0 (length (frames ds))).
Proof. intros H1. unfold zarr_to_visualizer_scene. by rewrite decide_False by lia. Qed.

(** An exception of the conversion of a single scene is the exception of
    one of its frames. *)
Lemma convert_raise_from_frame ds mapAPI wt e :
  length (scenes ds) = 1%nat →
  convert ds mapAPI wt = Raise e →
  ∃ i, (i < length (frames ds))%nat ∧
       convert_frame mapAPI wt (frames ds)
         (filter_agents_by_frames (frames ds) (agents ds))
         (filter_tl_faces_by_frames (frames ds) (tl_faces ds)) i = Raise e.
Proof.
  intros Hone. rewrite convert_single_scene by done.
  intros (i & Hi & Hraise)%mapM_Raise%Exists_exists.
  exists i. split; [|done]. apply list_elem_of_lookup in Hi as [j Hj].
  by apply lookup_seq in Hj as [-> ?].
Qed.

Lemma convert_not_single_scene ds mapAPI wt :
  length (scenes ds) ≠ 1%nat → convert ds mapAPI wt = Raise ValueError.
Proof. intros H1. unfold zarr_to_visualizer_scene. by rewrite decide_True. Qed.

(** The box of every agent reaches its visualisation, with its track
    identifier. *)
Lemma get_frame_data_agent mapAPI frame agents_frame tls_frame fv i a :
  get_frame_data mapAPI frame agents_frame tls_frame = Ok fv →
  agents_frame !! i = Some a →
  ∃ av, agents_vis fv !! i = Some av ∧
        agent_xs av = map fst (box_of a) ∧
        agent_ys av = map snd (box_of a) ∧
        agent_track_id av = track_id a.
Proof.
  intros (lanes_vis & cws & avs & _ & _ & Havs & ->)%get_frame_data_Ok Hi.
  apply mapM_Ok_1 in Havs.
  assert (zip agents_frame (box_world_coords agents_frame) !! i = Some (a, box_of a))
    as Hzip.
  { unfold box_world_coords. clear Havs. revert i Hi.
    induction agents_frame as [|b agents_frame IH]; intros [|i] Hi; try done.
    - by injection Hi as ->.
    - by apply IH. }
  destruct (Forall2_lookup_l _ _ _ _ _ Havs Hzip) as (av & Hav & Hbuilt).
  exists av. split; [done|]. unfold agent_vis in Hbuilt.
  apply bind_Ok in Hbuilt as (label_index & _ & Hbuilt).
  apply bind_Ok in Hbuilt as (type & _ & Hbuilt).
  apply bind_Ok in Hbuilt as (prob & _ & [= <-]). done.
Qed.

(** C1.  A dataset with more than one scene (two, in particular) is rejected:
    the conversion raises [ValueError] and returns no list at all, so no
    frame visualisation is produced for any frame, whatever the frames and
    the map are. *)
Theorem multi_scene_rejected ds mapAPI wt :
  (1 < length (scenes ds))%nat →
  convert ds mapAPI wt = Raise ValueError ∧
  ∀ out, convert ds mapAPI wt ≠ Ok out.
Proof.
  intros Hmany.
  assert (convert ds mapAPI wt = Raise ValueError) as Hraise
    by (apply convert_not_single_scene; lia).
  split; [done|]. intros out. by rewrite Hraise.
Qed.

(** C2.  On a dataset with a single scene the conversion returns a list
    exactly when every frame can be built, and the list it returns has one
    element per frame, in frame order: it is as long as the frame table, and
    its i-th element is what [_get_frame_data] builds from the i-th frame and
    that frame's own agents (kept at threshold 0.1) and traffic-light faces,
    with the trajectories anchored at i when they are requested. *)
Theorem one_visualisation_per_frame ds mapAPI wt out :
  length (scenes ds) = 1%nat →
  convert ds mapAPI wt = Ok out ↔
    length out = length (frames ds) ∧
    ∀ i frame, frames ds !! i = Some frame →
      let agents_frame :=
        filter_agents_by_labels
          (np.slice (agents ds) (agent_index_interval frame).1
                                (agent_index_interval frame).2) 0.1%R in
      let tls_frame :=
        np.slice (tl_faces ds) (traffic_light_faces_index_interval frame).1
                               (traffic_light_faces_index_interval frame).2 in
      ∃ fd, get_frame_data mapAPI frame agents_frame tls_frame = Ok fd ∧
            out !! i =
              Some (if wt
                    then with_trajectories_of
                           (_get_frame_trajectories (frames ds)
                              (filter_agents_by_frames (frames ds) (agents ds))
                              (map track_id agents_frame) i) fd
                    else fd).
Proof.
  intros Hone. rewrite convert_single_scene by done.
  rewrite mapM_Ok, Forall2_same_length_lookup, length_seq. split.
  - intros [Hlen Hall]. split; [done|].
    intros i frame Hi agents_frame tls_frame.
    assert (is_Some (out !! i)) as [fv Hfv].
    { apply lookup_lt_is_Some. rewrite <- Hlen. by eapply lookup_lt_Some. }
    assert (seq 0 (length (frames ds)) !! i = Some i) as Hseq.
    { apply lookup_seq. split; [done|]. by eapply lookup_lt_Some. }
    specialize (Hall i i fv Hseq Hfv).
    rewrite (convert_frame_lookup _ _ _ _ _ _ _ Hi) in Hall.
    fold agents_frame tls_frame in Hall.
    destruct (get_frame_data mapAPI frame agents_frame tls_frame) as [fd|];
      simpl in Hall; [|discriminate].
    exists fd. split; [done|]. rewrite Hfv. by injection Hall as <-.
  - intros [Hlen Hall]. split; [done|].
    intros i x fv [-> Hlt]%lookup_seq Hfv. simpl.
    destruct (lookup_lt_is_Some_2 (frames ds) i Hlt) as [frame Hi].
    destruct (Hall i frame Hi) as (fd & Hfd & Hout).
    rewrite (convert_frame_lookup _ _ _ _ _ _ _ Hi), Hfd. simpl. congruence.
Qed.

(** C4.  Whatever the agents of the frame are (none at all included), the
    frame visualisation that [_get_frame_data] builds has one ego polygon
    with four corners, the mean of the corners is the centroid of the ego
    agent synthesized from the frame (exactly, in exact arithmetic), and that
    centroid is what the record carries as centre.  With no agents the
    sequence of agent visualisations is empty. *)
Theorem ego_polygon_centroid mapAPI frame agents_frame tls_frame fv :
  get_frame_data mapAPI frame agents_frame tls_frame = Ok fv →
  length (ego_xs (ego fv)) = 4%nat ∧
  length (ego_ys (ego fv)) = 4%nat ∧
  np.mean (ego_xs (ego fv)) = (centroid (get_ego_as_agent frame)).1 ∧
  np.mean (ego_ys (ego fv)) = (centroid (get_ego_as_agent frame)).2 ∧
  center_x (ego fv) = (centroid (get_ego_as_agent frame)).1 ∧
  center_y (ego fv) = (centroid (get_ego_as_agent frame)).2 ∧
  (agents_frame = [] → agents_vis fv = []).
Proof.
  intros (lanes_vis & cws & avs & _ & _ & Havs & ->)%get_frame_data_Ok.
  cbn [ego ego_xs ego_ys center_x center_y agents_vis].
  rewrite box_of_mean_x, box_of_mean_y.
  repeat split; try done.
  intros ->. simpl in Havs. by injection Havs as <-.
Qed.

(** C5.  The colour of a lane.  When no traffic-control point of the lane is
    active, the colour is gray.  Otherwise the loop processes the active
    control points of the lane in some order and has a last one; when the
    ones before it have a colour, the result is the table colour of that
    last one.  The order of processing is any enumeration of the
    intersection. *)
Theorem lane_colour_resolution mapAPI (lane_tl_ids active_tl_ids : gset string) :
  (∀ s, set_iter s ≡ₚ elements s) →
  (lane_tl_ids ∩ active_tl_ids = ∅ →
     lane_colour_of set_iter mapAPI lane_tl_ids active_tl_ids = Ok "gray") ∧
  (lane_tl_ids ∩ active_tl_ids ≠ ∅ →
     ∃ processed last_id,
       set_iter (lane_tl_ids ∩ active_tl_ids) = processed ++ [last_id] ∧
       last_id ∈ lane_tl_ids ∧ last_id ∈ active_tl_ids ∧
       (Forall (λ tl_id, is_Ok (colour_of_face mapAPI tl_id)) processed →
          lane_colour_of set_iter mapAPI lane_tl_ids active_tl_ids =
            colour_of_face mapAPI last_id)).
Proof.
  intros Hperm. unfold lane_colour_of. split.
  - intros Hempty. rewrite Hempty.
    assert (set_iter ∅ = []) as ->; [|done].
    apply Permutation_nil_r. by rewrite Hperm, elements_empty.
  - intros Hne.
    destruct (set_iter (lane_tl_ids ∩ active_tl_ids)) as [|x l] eqn:Hiter
      using rev_ind.
    + exfalso. apply Hne. apply leibniz_equiv, elements_empty_inv.
      apply Permutation_nil_r. by rewrite <- Hperm, Hiter.
    + clear IHl. exists l, x. split; [done|].
      assert (x ∈ lane_tl_ids ∩ active_tl_ids) as [? ?]%elem_of_intersection.
      { apply elem_of_elements. rewrite <- Hperm, Hiter. set_solver. }
      repeat split; try done. apply lane_colour_loop_last.
Qed.

(** C9.  Without trajectories the conversion behaves as with trajectories
    (it returns or raises on the same inputs) and returns the same frames
    with the trajectories removed: every frame of the returned list has an
    empty sequence of trajectories. *)
Theorem without_trajectories_empty ds mapAPI :
  convert ds mapAPI false = map without_trajectories <$> convert ds mapAPI true ∧
  ∀ out, convert ds mapAPI false = Ok out →
         Forall (λ fv, trajectories fv = []) out.
Proof.
  assert (convert ds mapAPI false = map without_trajectories <$> convert ds mapAPI true)
    as Heq.
  { unfold zarr_to_visualizer_scene. case_decide; [done|].
    apply mapM_fmap. intros i. apply convert_frame_without. }
  split; [done|]. intros out. rewrite Heq.
  destruct (convert ds mapAPI true) as [out'|]; simpl; [|discriminate].
  intros [= <-]. apply Forall_forall. intros fv.
  rewrite list_elem_of_fmap. by intros (fv' & -> & _).
Qed.

End conversion.

(** ** Boolean masks *)

Section mask_lemmas.
Context {A : Type}.
Implicit Types (mask : list bool) (xs : list A).

Lemma count_nonzero_cons b mask :
  np.count_nonzero (b :: mask) = ((if b then 1 else 0) + np.count_nonzero mask)%nat.
Proof.
  unfold np.count_nonzero. destruct b.
  - by rewrite filter_cons_True.
  - by rewrite filter_cons_False.
Qed.

Lemma count_nonzero_le mask : (np.count_nonzero mask ≤ length mask)%nat.
Proof. unfold np.count_nonzero. apply length_filter. Qed.

Lemma bool_index_length mask xs :
  length mask = length xs →
  length (np.bool_index mask xs) = np.count_nonzero mask.
Proof.
  revert xs. induction mask as [|b mask IH]; intros [|x xs]; simpl; try done.
  intros [= Hlen]. rewrite count_nonzero_cons. destruct b; simpl; by rewrite IH.
Qed.

Lemma bool_index_sublist mask xs : np.bool_index mask xs `sublist_of` xs.
Proof.
  revert xs. induction mask as [|b mask IH]; intros [|x xs]; simpl;
    try apply sublist_nil_l.
  destruct b; [apply sublist_skip | apply sublist_cons]; apply IH.
Qed.

Lemma bool_index_app mask1 mask2 xs1 xs2 :
  length mask1 = length xs1 →
  np.bool_index (mask1 ++ mask2) (xs1 ++ xs2) =
    np.bool_index mask1 xs1 ++ np.bool_index mask2 xs2.
Proof.
  revert xs1. induction mask1 as [|b mask1 IH]; intros [|x xs1]; simpl; try done.
  intros [= Hlen]. destruct b; simpl; by rewrite IH.
Qed.

Lemma bool_index_all_false n xs : np.bool_index (replicate n false) xs = [].
Proof. revert xs. induction n as [|n IH]; intros [|x xs]; simpl; auto. Qed.

End mask_lemmas.

Lemma bool_index_map {A B} (f : A → B) mask xs :
  np.bool_index mask (map f xs) = map f (np.bool_index mask xs).
Proof.
  revert xs. induction mask as [|b mask IH]; intros [|x xs]; simpl; try done.
  destruct b; simpl; by rewrite IH.
Qed.

(** ** Windows of positions *)

Section windows.
Import l5kit zarr_utils.

(** The available positions of a list of steps are the positions of the
    steps in which the entity is visible. *)
Lemma available_steps selected (l : list (Frame * list Agent)) :
  let steps := map (λ st, pose_at selected st.1 st.2) l in
  np.bool_index (np.gt0 (map snd steps)) (map fst steps)
    = omap (visible_position selected) l.
Proof.
  cbv zeta. induction l as [|[frame frame_agents] l IH]; [done|].
  cbn [map omap list_omap fst snd np.gt0 np.bool_index].
  change (map (λ a : R, bool_decide (0 < a)%R) ?x) with (np.gt0 x).
  rewrite IH. generalize (omap (visible_position selected) l) as rest. intros rest.
  unfold pose_at, visible_position. destruct selected as [tid|]; cbn [fst snd].
  - destruct (filter_agents_by_track_id frame_agents tid) as [|a ?]; cbn [fst snd].
    + by rewrite bool_decide_eq_false_2 by lra.
    + by rewrite bool_decide_eq_true_2 by lra.
  - by rewrite bool_decide_eq_true_2 by lra.
Qed.

Lemma get_relative_poses_length num_frames frames selected agents :
  length (get_relative_poses num_frames frames selected agents).1 = num_frames ∧
  length (get_relative_poses num_frames frames selected agents).2 = num_frames.
Proof.
  unfold get_relative_poses. cbn [fst snd].
  rewrite !length_map, !length_app, !length_replicate, !length_take. lia.
Qed.

(** What [pos[avail > 0]] retains: the positions of the entity in the frames
    of the window where it is visible, in frame order. *)
Lemma get_relative_poses_available num_frames frames selected agents :
  np.bool_index (np.gt0 (get_relative_poses num_frames frames selected agents).2)
                (get_relative_poses num_frames frames selected agents).1
    = omap (visible_position selected) (take num_frames (zip frames agents)).
Proof.
  unfold get_relative_poses. cbn [fst snd]. unfold np.gt0.
  rewrite !map_app, bool_index_app by (by rewrite !length_map).
  change (map ?f (replicate ?n ?x)) with (f <$> replicate n x).
  rewrite !fmap_replicate. cbn [fst snd].
  rewrite bool_decide_eq_false_2 by lra.
  rewrite bool_index_all_false, app_nil_r.
  rewrite zip_with_zip, <- fmap_take.
  assert (uncurry (pose_at selected) <$> take num_frames (zip frames agents)
          = map (λ st, pose_at selected st.1 st.2) (take num_frames (zip frames agents)))
    as -> by (apply list_fmap_ext; by intros ? [? ?] _).
  apply available_steps.
Qed.

Lemma visible_position_never tid (l : list (Frame * list Agent)) :
  never_appears tid (map snd l) → omap (visible_position (Some tid)) l = [].
Proof.
  unfold never_appears. induction l as [|[frame frame_agents] l IH]; [done|].
  cbn [map omap list_omap snd].
  intros [Hhere Hrest]%Forall_cons. rewrite (IH Hrest).
  unfold visible_position, filter_agents_by_track_id. cbn [snd].
  destruct (filter _ frame_agents) as [|a ?] eqn:Hfilter; [done|].
  assert (a ∈ filter (λ a, track_id a = tid) frame_agents) as [Ha Hin]%list_elem_of_filter
    by (rewrite Hfilter; left).
  rewrite Forall_forall in Hhere. by destruct (Hhere a Hin).
Qed.

(** The trajectory of a track and of ego, in terms of the window. *)
Lemma agent_trajectory_unfold frames agents_frames frame_index tid :
  let frames_w := np.slice frames frame_index (frame_index + agent_traj_length) in
  let agents_w := np.slice agents_frames frame_index (frame_index + agent_traj_length) in
  let r := get_relative_poses agent_traj_length frames_w (Some tid) agents_w in
  agent_trajectory frames agents_frames frame_index tid =
    {| traj_xs := np.bool_index (np.gt0 r.2) (map fst r.1);
       traj_ys := np.bool_index (np.gt0 r.2) (map snd r.1);
       traj_color := "blue";
       legend_label := "agent_trajectory";
       traj_track_id := tid |}.
Proof. reflexivity. Qed.

Lemma ego_trajectory_unfold frames agents_frames frame_index :
  let frames_w := np.slice frames frame_index (frame_index + ego_traj_length) in
  let agents_w := np.slice agents_frames frame_index (frame_index + ego_traj_length) in
  let r := get_relative_poses ego_traj_length frames_w None agents_w in
  ego_trajectory frames agents_frames frame_index =
    {| traj_xs := np.bool_index (np.gt0 r.2) (map fst r.1);
       traj_ys := np.bool_index (np.gt0 r.2) (map snd r.1);
       traj_color := "red";
       legend_label := "ego_trajectory";
       traj_track_id := (-1)%Z |}.
Proof. reflexivity. Qed.

End windows.

(** ** Trajectories *)

Section trajectories.
Import l5kit zarr_utils.

(** What the two coordinate sequences cut out of a window say together. *)
Lemma window_trajectory_facts n frames_w selected agents_w xs ys :
  let r := get_relative_poses n frames_w selected agents_w in
  xs = np.bool_index (np.gt0 r.2) (map fst r.1) →
  ys = np.bool_index (np.gt0 r.2) (map snd r.1) →
  length r.1 = n ∧ length r.2 = n ∧
  zip xs ys = np.bool_index (np.gt0 r.2) r.1 ∧
  length xs = np.count_nonzero (np.gt0 r.2) ∧
  length ys = np.count_nonzero (np.gt0 r.2) ∧
  (length xs ≤ n)%nat ∧
  zip xs ys = omap (visible_position selected) (take n (zip frames_w agents_w)).
Proof.
  intros r -> ->.
  destruct (get_relative_poses_length n frames_w selected agents_w) as [Hpos Havail].
  fold r in Hpos, Havail.
  assert (length (np.gt0 r.2) = n) as Hmask by (unfold np.gt0; by rewrite length_map).
  assert (zip (np.bool_index (np.gt0 r.2) (map fst r.1))
              (np.bool_index (np.gt0 r.2) (map snd r.1))
          = np.bool_index (np.gt0 r.2) r.1) as Hzip.
  { rewrite !bool_index_map. apply zip_fst_snd. }
  assert (length (np.bool_index (np.gt0 r.2) (map fst r.1))
          = np.count_nonzero (np.gt0 r.2)) as Hxs.
  { apply bool_index_length. by rewrite Hmask, length_map. }
  assert (length (np.bool_index (np.gt0 r.2) (map snd r.1))
          = np.count_nonzero (np.gt0 r.2)) as Hys.
  { apply bool_index_length. by rewrite Hmask, length_map. }
  repeat split; try done.
  - rewrite Hxs, <- Hmask. apply count_nonzero_le.
  - rewrite Hzip. apply get_relative_poses_available.
Qed.

Lemma never_appears_window tid n (frames_w : list Frame) agents_w :
  never_appears tid agents_w →
  never_appears tid (map snd (take n (zip frames_w agents_w))).
Proof.
  unfold never_appears. rewrite !Forall_forall. intros Hall frame_agents.
  change (map snd ?l) with (l.*2). intros ([frame x] & -> & Hin)%list_elem_of_fmap.
  apply Hall. apply subseteq_take in Hin. by eapply elem_of_zip_r.
Qed.

(** C6.  Every trajectory of the extractor is cut out of one window: 20
    steps with one of the requested track identifiers, or 100 steps with
    ego.  The positions and the availability mask of the window have one
    entry per step, the trajectory holds the positions whose entry in the
    mask is true, as many as there are true entries and never more than the
    window is long, and they are the positions of the entity in the frames
    of the window where it is visible, in frame order. *)
Theorem trajectory_matches_availability frames agents_frames track_ids frame_index t :
  t ∈ _get_frame_trajectories frames agents_frames track_ids frame_index →
  ∃ window selected,
    ((window = 20%nat ∧ ∃ tid, tid ∈ track_ids ∧ selected = Some tid) ∨
     (window = 100%nat ∧ selected = None)) ∧
    let frames_w := np.slice frames frame_index (frame_index + window) in
    let agents_w := np.slice agents_frames frame_index (frame_index + window) in
    let pos := (get_relative_poses window frames_w selected agents_w).1 in
    let avail := (get_relative_poses window frames_w selected agents_w).2 in
    length pos = window ∧ length avail = window ∧
    traj_points t = np.bool_index (np.gt0 avail) pos ∧
    length (traj_xs t) = np.count_nonzero (np.gt0 avail) ∧
    length (traj_ys t) = np.count_nonzero (np.gt0 avail) ∧
    (length (traj_xs t) ≤ window)%nat ∧
    traj_points t = omap (visible_position selected) (take window (zip frames_w agents_w)).
Proof.
  unfold _get_frame_trajectories. rewrite elem_of_app, list_elem_of_fmap.
  intros [(tid & -> & Htid) | ->%list_elem_of_singleton].
  - exists 20%nat, (Some tid). split; [left; eauto|].
    apply (window_trajectory_facts agent_traj_length); by rewrite agent_trajectory_unfold.
  - exists 100%nat, None. split; [by right|].
    apply (window_trajectory_facts ego_traj_length); by rewrite ego_trajectory_unfold.
Qed.

(** C7.  The extractor returns one trajectory per requested track
    identifier, in the order of the request, and the trajectory of ego after
    them: [len(track_ids) + 1] in all.  The trajectory of a track identifier
    that appears in no frame of the window is there all the same, with no
    position. *)
Theorem trajectory_per_track_and_ego frames agents_frames track_ids frame_index :
  let trajs := _get_frame_trajectories frames agents_frames track_ids frame_index in
  length trajs = (length track_ids + 1)%nat ∧
  (∀ k tid, track_ids !! k = Some tid →
     ∃ t, trajs !! k = Some t ∧
          traj_track_id t = tid ∧ legend_label t = "agent_trajectory" ∧
          (never_appears tid
             (np.slice agents_frames frame_index (frame_index + agent_traj_length)) →
           traj_xs t = [] ∧ traj_ys t = [])) ∧
  (∃ t, trajs !! length track_ids = Some t ∧
        traj_track_id t = (-1)%Z ∧ legend_label t = "ego_trajectory").
Proof.
  unfold _get_frame_trajectories. cbv zeta. split; [|split].
  - rewrite length_app, length_map. done.
  - intros k tid Hk. exists (agent_trajectory frames agents_frames frame_index tid).
    split; [|split; [done|split; [done|]]].
    + rewrite lookup_app_l by (rewrite length_map; by eapply lookup_lt_Some).
      change (map ?f ?l) with (f <$> l). by rewrite list_lookup_fmap, Hk.
    + intros Hnever. rewrite agent_trajectory_unfold. cbn [traj_xs traj_ys].
      rewrite !bool_index_map, get_relative_poses_available.
      rewrite visible_position_never; [done|]. by apply never_appears_window.
  - exists (ego_trajectory frames agents_frames frame_index). split; [|done].
    rewrite lookup_app_r by (by rewrite length_map).
    by rewrite length_map, Nat.sub_diag.
Qed.

End trajectories.

(** ** Filtering the agents by probability *)

Section label_filter.
Import l5kit.

(** The filter keeps exactly the agents that are not below the threshold. *)
Lemma filter_agents_by_labels_elem a agents threshold :
  a ∈ filter_agents_by_labels agents threshold ↔
  ¬ below_threshold threshold a ∧ a ∈ agents.
Proof. unfold filter_agents_by_labels. by rewrite list_elem_of_filter. Qed.

(** C8.  Filtering the agents at a threshold is idempotent: filtering the
    filtered agents again at the same threshold changes nothing. *)
Theorem filter_agents_by_labels_idempotent agents threshold :
  filter_agents_by_labels (filter_agents_by_labels agents threshold) threshold
    = filter_agents_by_labels agents threshold.
Proof.
  unfold filter_agents_by_labels.
  induction agents as [|a agents IH]; [done|].
  destruct (decide (¬ below_threshold threshold a)) as [Hkeep|Hdrop].
  - rewrite !filter_cons_True by done. by rewrite IH.
  - by rewrite filter_cons_False by done.
Qed.

End label_filter.

(** ** The box of an agent that is not rotated *)

Section axis_aligned.
Import zarr_utils.
Local Open Scope R_scope.

(** C3.  For an agent with yaw 0, extent (L, W) and centroid c the geometry
    transform gives the axis-aligned box with the four corners
    c + (±L/2, ±W/2). *)
Theorem yaw_zero_axis_aligned_box agents_frame i a :
  agents_frame !! i = Some a →
  yaw a = 0 →
  let L := (extent a).1.1 in
  let W := (extent a).1.2 in
  let cx := (centroid a).1 in
  let cy := (centroid a).2 in
  box_world_coords agents_frame !! i =
    Some [ (cx - L / 2, cy - W / 2);
           (cx - L / 2, cy + W / 2);
           (cx + L / 2, cy + W / 2);
           (cx + L / 2, cy - W / 2) ].
Proof.
  intros Hi Hyaw. cbv zeta.
  rewrite box_world_coords_lookup, Hi. simpl. f_equal. by apply box_of_yaw_zero.
Qed.

End axis_aligned.

(** ** The reward *)

Section reward_lemmas.
Import reward.

Context (MetricSet : Type)
        (evaluate : MetricSet → list SimulationOutputCLE → result MetricSet)
        (scene_metric_results : MetricSet → gmap Z (gmap string (list R))).

Abbreviation reward_of := (get_reward MetricSet evaluate scene_metric_results).

Lemma py_max_lower a b : (a <= np.max a b)%R.
Proof. unfold np.max. case_bool_decide; lra. Qed.

(** [get_reward] returns exactly when the first simulation output exists,
    the evaluation goes through, both metrics of its scene have an entry at
    [frame_index + 1] and the weight of the yaw error is a number; it then
    returns the three rewards under their three names. *)
Lemma get_reward_Ok self metric_set frame_index simulated_outputs d metric_set' :
  reward_of self metric_set frame_index simulated_outputs = Ok (d, metric_set') ↔
  ∃ first scene_metrics displacement dist_error yaw_errors yaw_error_at weight,
    simulated_outputs !! 0%nat = Some first ∧
    evaluate metric_set simulated_outputs = Ok metric_set' ∧
    scene_metric_results metric_set' !! scene_id first = Some scene_metrics ∧
    scene_metrics !! "displacement_error_l2" = Some displacement ∧
    np.getitem_int displacement (frame_index + 1) = Ok dist_error ∧
    scene_metrics !! "yaw_error_closest_angle" = Some yaw_errors ∧
    np.getitem_int yaw_errors (frame_index + 1) = Ok yaw_error_at ∧
    yaw_weight self = Some weight ∧
    let dist_reward :=
      if enable_clip self then np.max (- rew_clip_thresh self) (- dist_error)
      else (- dist_error)%R in
    let yaw_reward :=
      if truthy (use_yaw self) then (0 - weight * yaw_error_at)%R else 0%R in
    d = list_to_map [ ("total", (dist_reward + yaw_reward)%R);
                      ("distance", dist_reward);
                      ("yaw", yaw_reward) ].
Proof.
  unfold get_reward, np.getitem, np.dict_get. split.
  - destruct (simulated_outputs !! 0%nat) as [first|] eqn:H1; simpl; [|discriminate].
    destruct (evaluate metric_set simulated_outputs) as [ms|] eqn:H2;
      simpl; [|discriminate].
    destruct (scene_metric_results ms !! scene_id first) as [scene_metrics|] eqn:H3;
      simpl; [|discriminate].
    destruct (scene_metrics !! "displacement_error_l2") as [displacement|] eqn:H4;
      simpl; [|discriminate].
    destruct (np.getitem_int displacement (frame_index + 1)) as [dist_error|] eqn:H5;
      simpl; [|discriminate].
    destruct (scene_metrics !! "yaw_error_closest_angle") as [yaw_errors|] eqn:H6;
      simpl; [|discriminate].
    destruct (np.getitem_int yaw_errors (frame_index + 1)) as [yaw_error_at|] eqn:H7;
      simpl; [|discriminate].
    destruct (yaw_weight self) as [weight|] eqn:H8; simpl; [|discriminate].
    intros [= <- <-].
    by exists first, scene_metrics, displacement, dist_error, yaw_errors,
              yaw_error_at, weight.
  - intros (first & scene_metrics & displacement & dist_error & yaw_errors &
            yaw_error_at & weight & -> & -> & H3 & H4 & H5 & H6 & H7 & H8 & ->).
    simpl. rewrite H3. simpl. rewrite H4. simpl. rewrite H5. simpl.
    rewrite H6. simpl. rewrite H7. simpl. rewrite H8. done.
Qed.

(** C10.  The dictionary that [get_reward] returns has the three keys
    "total", "distance" and "yaw" and no other; the total is the sum of the
    other two; with clipping enabled the distance reward is at least
    [-rew_clip_thresh]; and when [use_yaw] is not set the yaw reward is 0. *)
Theorem reward_components self metric_set frame_index simulated_outputs d metric_set' :
  reward_of self metric_set frame_index simulated_outputs = Ok (d, metric_set') →
  dom d = {[ "total"; "distance"; "yaw" ]} ∧
  ∃ total distance yaw_reward,
    d !! "total" = Some total ∧
    d !! "distance" = Some distance ∧
    d !! "yaw" = Some yaw_reward ∧
    total = (distance + yaw_reward)%R ∧
    (enable_clip self = true → (- rew_clip_thresh self <= distance)%R) ∧
    (truthy (use_yaw self) = false → yaw_reward = 0%R).
Proof.
  intros (first & scene_metrics & displacement & dist_error & yaw_errors &
          yaw_error_at & weight & _ & _ & _ & _ & _ & _ & _ & _ & ->)%get_reward_Ok.
  cbv zeta. split.
  - cbn [list_to_map foldr uncurry]. rewrite !dom_insert_L, dom_empty_L. set_solver.
  - eexists _, _, _. split; [|split; [|split; [|split; [|split]]]].
    + cbn [list_to_map foldr uncurry]. by rewrite lookup_insert_eq.
    + cbn [list_to_map foldr uncurry].
      rewrite lookup_insert_ne by done. by rewrite lookup_insert_eq.
    + cbn [list_to_map foldr uncurry].
      rewrite !lookup_insert_ne by done. by rewrite lookup_insert_eq.
    + done.
    + intros ->. apply py_max_lower.
    + by intros ->.
Qed.

End reward_lemmas.

(** * The definitions on the small scene *)

Section sample_runs.
Import l5kit zarr_utils.

Ltac real_decide :=
  repeat first
    [ rewrite bool_decide_eq_true_2 by (simpl; lra)
    | rewrite bool_decide_eq_false_2 by (simpl; lra)
    | rewrite decide_True by (repeat split; simpl; lra)
    | rewrite decide_False by (simpl; lra) ].

Ltac records_eq :=
  repeat match goal with
         | |- Ok _ = Ok _ => f_equal
         | |- Build_FrameVisualisation _ _ _ _ _ = _ => f_equal
         | |- Build_EgoVisualisation _ _ _ _ _ = _ => f_equal
         | |- Build_AgentVisualisation _ _ _ _ _ _ = _ => f_equal
         | |- Build_LaneVisualisation _ _ _ = _ => f_equal
         | |- _ :: _ = _ :: _ => f_equal
         end.

Abbreviation sample_frame_data :=
  (_get_frame_data sample.get_ego_as_agent sample.indices_in_bounds
                   sample.PERCEPTION_LABELS sample.set_iter).
Abbreviation sample_convert :=
  (zarr_to_visualizer_scene sample.get_ego_as_agent sample.indices_in_bounds
                            sample.PERCEPTION_LABELS sample.set_iter).

Lemma COLORS_red : np.dict_get COLORS "RED" = Ok "#FF3300".
Proof. vm_compute. reflexivity. Qed.

Lemma COLORS_blue : np.dict_get COLORS "BLUE" = Raise KeyError.
Proof. vm_compute. reflexivity. Qed.

Lemma COLORS_car : COLORS !! "PERCEPTION_LABEL_CAR" = Some "#1F77B4".
Proof. vm_compute. reflexivity. Qed.

Lemma sample_frame0_data :
  sample_frame_data sample.mapAPI sample.frame0 [sample.car0] [sample.face]
    = Ok sample.frame0_vis.
Proof.
  unfold _get_frame_data, sample.indices_in_bounds.
  cbn -[COLORS sample.set_iter]. real_decide. cbn -[COLORS sample.set_iter].
  unfold lane_vis, lane_colour_of. cbn -[COLORS sample.set_iter].
  replace (sample.set_iter _) with ["f1"] by (vm_compute; reflexivity).
  cbn -[COLORS].
  rewrite COLORS_red, COLORS_car. cbn. rewrite sin_0, cos_0.
  unfold sample.frame0_vis, mret, result_ret. records_eq; lra.
Qed.

Lemma sample_frame1_data :
  sample_frame_data sample.mapAPI sample.frame1 [sample.car1] []
    = Ok sample.frame1_vis.
Proof.
  unfold _get_frame_data, sample.indices_in_bounds.
  cbn -[COLORS sample.set_iter]. real_decide. cbn -[COLORS sample.set_iter].
  unfold lane_vis, lane_colour_of. cbn -[COLORS sample.set_iter].
  replace (sample.set_iter _) with (@nil string) by (vm_compute; reflexivity).
  cbn -[COLORS].
  rewrite COLORS_car. cbn. rewrite sin_0, cos_0.
  unfold sample.frame1_vis, mret, result_ret. records_eq; lra.
Qed.

Lemma sample_filter_frame0 :
  filter_agents_by_labels [sample.car0; sample.ghost] 0.1%R = [sample.car0].
Proof.
  unfold filter_agents_by_labels.
  rewrite filter_cons_True, filter_cons_False, filter_nil; [done| |].
  - intros Hkeep. apply Hkeep. unfold below_threshold. simpl.
    unfold Rmax. repeat destruct (Rle_dec _ _); lra.
  - unfold below_threshold. simpl. unfold Rmax. repeat destruct (Rle_dec _ _); lra.
Qed.

Lemma sample_filter_frame1 :
  filter_agents_by_labels [sample.car1] 0.1%R = [sample.car1].
Proof.
  unfold filter_agents_by_labels. rewrite filter_cons_True, filter_nil; [done|].
  unfold below_threshold. simpl. unfold Rmax. repeat destruct (Rle_dec _ _); lra.
Qed.

(** A face whose colour has no entry in the table stops the conversion. *)
Lemma sample_blue_frame0 :
  sample_frame_data sample.mapAPI_blue sample.frame0 [sample.car0] [sample.face]
    = Raise KeyError.
Proof.
  unfold _get_frame_data, sample.indices_in_bounds.
  cbn -[COLORS sample.set_iter]. real_decide. cbn -[COLORS sample.set_iter].
  unfold lane_vis, lane_colour_of. cbn -[COLORS sample.set_iter].
  replace (sample.set_iter _) with ["f1"] by (vm_compute; reflexivity).
  cbn -[COLORS]. by rewrite COLORS_blue.
Qed.

Lemma sample_blue_raises :
  sample_convert sample.dataset sample.mapAPI_blue false = Raise KeyError.
Proof.
  rewrite convert_single_scene by reflexivity.
  cbn [mapM seq length frames sample.dataset].
  rewrite (convert_frame_lookup _ _ _ _ _ _ _ _ _ 0 sample.frame0) by reflexivity.
  cbv zeta. unfold np.slice. cbn [take drop Nat.sub
      agent_index_interval traffic_light_faces_index_interval sample.frame0
      fst snd agents tl_faces sample.dataset].
  by rewrite sample_filter_frame0, sample_blue_frame0.
Qed.

(** The scene, converted without trajectories. *)
Lemma sample_scene_plain :
  sample_convert sample.dataset sample.mapAPI false
    = Ok [sample.frame0_vis; sample.frame1_vis].
Proof.
  rewrite convert_single_scene by reflexivity.
  cbn [mapM seq length frames sample.dataset].
  rewrite (convert_frame_lookup _ _ _ _ _ _ _ _ _ 0 sample.frame0) by reflexivity.
  rewrite (convert_frame_lookup _ _ _ _ _ _ _ _ _ 1 sample.frame1) by reflexivity.
  cbv zeta. unfold np.slice. cbn [take drop Nat.sub
      agent_index_interval traffic_light_faces_index_interval sample.frame0
      sample.frame1 fst snd agents tl_faces sample.dataset].
  by rewrite sample_filter_frame0, sample_filter_frame1,
             sample_frame0_data, sample_frame1_data.
Qed.

(** The positions of track 7 from frame 0 on: one per frame. *)
Lemma sample_track7_positions :
  traj_points
    (agent_trajectory (frames sample.dataset)
       (filter_agents_by_frames (frames sample.dataset) (agents sample.dataset)) 0 7)
    = [ (30, 40); (31, 40) ]%R.
Proof.
  rewrite agent_trajectory_unfold. cbv zeta. unfold traj_points. cbn [traj_xs traj_ys].
  rewrite !bool_index_map. change (map ?f ?l) with (f <$> l) at 1 2.
  rewrite zip_fst_snd, get_relative_poses_available. reflexivity.
Qed.

End sample_runs.

(** * The statements at the small scene *)

Section sample_instances.
Import l5kit zarr_utils.

Lemma multi_scene_rejected_sample :
  (1 < length (scenes sample.two_scenes))%nat ∧
  zarr_to_visualizer_scene sample.get_ego_as_agent sample.indices_in_bounds
    sample.PERCEPTION_LABELS sample.set_iter sample.two_scenes sample.mapAPI true
    = Raise ValueError.
Proof.
  assert (1 < length (scenes sample.two_scenes))%nat as Hmany by (simpl; lia).
  split; [exact Hmany|].
  exact (proj1 (multi_scene_rejected sample.get_ego_as_agent sample.indices_in_bounds
                  sample.PERCEPTION_LABELS sample.set_iter
                  sample.two_scenes sample.mapAPI true Hmany)).
Defined.

Lemma one_visualisation_per_frame_sample :
  length (scenes sample.dataset) = 1%nat ∧
  zarr_to_visualizer_scene sample.get_ego_as_agent sample.indices_in_bounds
    sample.PERCEPTION_LABELS sample.set_iter sample.dataset sample.mapAPI false
    = Ok [sample.frame0_vis; sample.frame1_vis].
Proof.
  split; [reflexivity|].
  apply (one_visualisation_per_frame sample.get_ego_as_agent sample.indices_in_bounds
           sample.PERCEPTION_LABELS sample.set_iter
           sample.dataset sample.mapAPI false); [reflexivity|].
  split; [reflexivity|].
  intros [|[|i]] frame Hi; simpl in Hi; [| |discriminate];
    injection Hi as <-; cbv zeta; unfold np.slice; cbn [take drop Nat.sub
      agent_index_interval traffic_light_faces_index_interval sample.frame0
      sample.frame1 fst snd agents tl_faces sample.dataset].
  - rewrite sample_filter_frame0. eexists. split; [apply sample_frame0_data|done].
  - rewrite sample_filter_frame1. eexists. split; [apply sample_frame1_data|done].
Defined.

Lemma yaw_zero_axis_aligned_box_sample :
  box_world_coords [sample.car0] !! 0%nat =
    Some [ (30 - 6 / 2, 40 - 2 / 2); (30 - 6 / 2, 40 + 2 / 2);
           (30 + 6 / 2, 40 + 2 / 2); (30 + 6 / 2, 40 - 2 / 2) ]%R.
Proof.
  apply (yaw_zero_axis_aligned_box [sample.car0] 0 sample.car0); reflexivity.
Defined.

Lemma ego_polygon_centroid_sample :
  length (ego_xs (ego sample.frame0_vis)) = 4%nat ∧
  length (ego_ys (ego sample.frame0_vis)) = 4%nat ∧
  np.mean (ego_xs (ego sample.frame0_vis)) = 10%R ∧
  np.mean (ego_ys (ego sample.frame0_vis)) = 20%R ∧
  center_x (ego sample.frame0_vis) = 10%R ∧
  center_y (ego sample.frame0_vis) = 20%R ∧
  ([sample.car0] = [] → agents_vis sample.frame0_vis = []).
Proof.
  apply (ego_polygon_centroid sample.get_ego_as_agent sample.indices_in_bounds
           sample.PERCEPTION_LABELS sample.set_iter
           sample.mapAPI sample.frame0 [sample.car0] [sample.face]).
  apply sample_frame0_data.
Defined.

Lemma lane_colour_resolution_sample :
  lane_colour_of sample.set_iter sample.mapAPI {[ "f1"; "f2" ]} {[ "f1" ]}
    = Ok "#FF3300".
Proof.
  destruct (lane_colour_resolution sample.set_iter sample.mapAPI
              {[ "f1"; "f2" ]} {[ "f1" ]}) as [_ Hlast].
  { intros s. reflexivity. }
  destruct Hlast as (processed & last_id & _ & _ & _ & Hcolour).
  { intros Hempty. assert ("f1" ∈ (∅ : gset string)) as Hin; [|set_solver].
    rewrite <- Hempty. set_solver. }
  rewrite Hcolour.
  - apply COLORS_red.
  - apply Forall_forall. intros tl_id _. eexists. apply COLORS_red.
Defined.

Lemma trajectory_matches_availability_sample :
  let frames := frames sample.dataset in
  let agents_frames := filter_agents_by_frames frames (agents sample.dataset) in
  let t := agent_trajectory frames agents_frames 0 7 in
  ∃ window selected,
    ((window = 20%nat ∧ ∃ tid, tid ∈ [7%Z] ∧ selected = Some tid) ∨
     (window = 100%nat ∧ selected = None)) ∧
    let frames_w := np.slice frames 0 (0 + window) in
    let agents_w := np.slice agents_frames 0 (0 + window) in
    let pos := (get_relative_poses window frames_w selected agents_w).1 in
    let avail := (get_relative_poses window frames_w selected agents_w).2 in
    length pos = window ∧ length avail = window ∧
    traj_points t = np.bool_index (np.gt0 avail) pos ∧
    length (traj_xs t) = np.count_nonzero (np.gt0 avail) ∧
    length (traj_ys t) = np.count_nonzero (np.gt0 avail) ∧
    (length (traj_xs t) ≤ window)%nat ∧
    traj_points t = omap (visible_position selected) (take window (zip frames_w agents_w)).
Proof.
  intros frames agents_frames t.
  apply (trajectory_matches_availability frames agents_frames [7%Z] 0 t).
  unfold _get_frame_trajectories. apply elem_of_app. left. simpl. left.
Defined.

Lemma trajectory_per_track_and_ego_sample :
  let frames := frames sample.dataset in
  let agents_frames := filter_agents_by_frames frames (agents sample.dataset) in
  let trajs := _get_frame_trajectories frames agents_frames [9%Z] 1 in
  length trajs = 2%nat ∧
  ∃ t, trajs !! 0%nat = Some t ∧ traj_track_id t = 9%Z ∧
       traj_xs t = [] ∧ traj_ys t = [].
Proof.
  intros frames agents_frames trajs.
  destruct (trajectory_per_track_and_ego frames agents_frames [9%Z] 1)
    as (Hlen & Htracks & _).
  split; [exact Hlen|].
  destruct (Htracks 0%nat 9%Z eq_refl) as (t & Ht & Hid & _ & Hempty).
  exists t. split; [exact Ht|]. split; [exact Hid|].
  apply Hempty. repeat constructor. simpl. lia.
Defined.

Lemma without_trajectories_empty_sample :
  Forall (λ fv, trajectories fv = []) [sample.frame0_vis; sample.frame1_vis].
Proof.
  apply (proj2 (without_trajectories_empty sample.get_ego_as_agent
                  sample.indices_in_bounds sample.PERCEPTION_LABELS sample.set_iter
                  sample.dataset sample.mapAPI)).
  apply sample_scene_plain.
Defined.

Lemma reward_components_sample :
  dom sample.reward_dict = {[ "total"; "distance"; "yaw" ]} ∧
  ∃ total distance yaw_reward,
    sample.reward_dict !! "total" = Some total ∧
    sample.reward_dict !! "distance" = Some distance ∧
    sample.reward_dict !! "yaw" = Some yaw_reward ∧
    total = (distance + yaw_reward)%R ∧
    (reward.enable_clip sample.cle_reward = true →
       (- reward.rew_clip_thresh sample.cle_reward <= distance)%R) ∧
    (reward.truthy (reward.use_yaw sample.cle_reward) = false → yaw_reward = 0%R).
Proof.
  apply (reward_components _ sample.evaluate sample.scene_metric_results
           sample.cle_reward
           sample.metric_table 0 sample.simulated_outputs
           sample.reward_dict sample.metric_table).
  apply get_reward_Ok.
  exists {| reward.scene_id := 3 |},
         (list_to_map [ ("displacement_error_l2", [0; 20]%R);
                        ("yaw_error_closest_angle", [0; 0.1]%R) ]),
         [0; 20]%R, 20%R, [0; 0.1]%R, 0.1%R, 20%R.
  repeat (split; [reflexivity|]). cbn [reward.enable_clip reward.use_yaw
    reward.rew_clip_thresh sample.cle_reward reward.truthy default].
  unfold np.max. rewrite bool_decide_eq_false_2 by lra.
  unfold sample.reward_dict.
  repeat match goal with
         | |- list_to_map _ = list_to_map _ => f_equal
         | |- _ :: _ = _ :: _ => f_equal
         | |- (_, _) = (_, _) => f_equal
         end; unfold Datatypes.id; cbv iota; lra.
Defined.

End sample_instances.

(** * Further properties of the code *)

(** ** Loops that may raise *)

Section loop_lemmas.
Context {A B : Type}.
Implicit Types (f : A → result B) (l : list A) (k : list B).

(** A loop raises the exception of the first element that raises. *)
Lemma mapM_Raise_first f l e :
  mapM f l = Raise e ↔
  ∃ i x, l !! i = Some x ∧ f x = Raise e ∧
         ∀ j y, (j < i)%nat → l !! j = Some y → is_Ok (f y).
Proof.
  induction l as [|a l IH]; simpl.
  - split; [discriminate|]. by intros (i & x & Hi & _).
  - destruct (f a) as [b|e'] eqn:Hfa; simpl.
    + destruct (mapM f l) as [k|e'']; simpl.
      * split; [discriminate|].
        intros (i & x & Hi & Hx & Hbefore). destruct i as [|i]; simpl in Hi.
        { injection Hi as <-. congruence. }
        assert (Ok k = Raise e) as Habs; [|discriminate].
        apply IH. exists i, x. repeat split; try done.
        intros j y Hj Hy. apply (Hbefore (S j) y); [lia|done].
      * split.
        { intros [= ->]. destruct (proj1 IH eq_refl) as (i & x & Hi & Hx & Hbefore).
          exists (S i), x. repeat split; try done.
          intros [|j] y Hj Hy; simpl in Hy.
          - injection Hy as <-. by exists b.
          - apply (Hbefore j y); [lia|done]. }
        { intros (i & x & Hi & Hx & Hbefore). destruct i as [|i]; simpl in Hi.
          - injection Hi as <-. congruence.
          - f_equal. assert (Raise e'' = Raise e :> result (list B)) as [= ->]; [|done].
            apply IH. exists i, x. repeat split; try done.
            intros j y Hj Hy. apply (Hbefore (S j) y); [lia|done]. }
    + split.
      * intros [= ->]. exists 0%nat, a. repeat split; try done. lia.
      * intros (i & x & Hi & Hx & Hbefore). destruct i as [|i]; simpl in Hi.
        { injection Hi as <-. congruence. }
        destruct (Hbefore 0%nat a) as [b Hb]; [lia|done|congruence].
Qed.

(** What holds of every result of the body holds of the results of the
    loop. *)
Lemma mapM_Ok_Forall (P : B → Prop) f l k :
  mapM f l = Ok k →
  (∀ x y, x ∈ l → f x = Ok y → P y) →
  Forall P k.
Proof.
  intros Hall%mapM_Ok_1 HP. induction Hall as [|x y l k Hxy _ IH]; [done|].
  constructor.
  - apply (HP x y); [left|done].
  - apply IH. intros x' y' Hin. apply HP. by right.
Qed.

End loop_lemmas.

(** ** [np.argmax] *)

Section argmax_lemmas.

(** The scan keeps the first largest value seen so far. *)
Lemma argmax_from_spec (seen : list R) best best_i xs :
  seen !! best_i = Some best →
  Forall (λ y, (y <= best)%R) seen →
  (∀ j y, (j < best_i)%nat → seen !! j = Some y → (y < best)%R) →
  ∃ m, (seen ++ xs) !! np.argmax_from best best_i (length seen) xs = Some m ∧
       Forall (λ y, (y <= m)%R) (seen ++ xs) ∧
       ∀ j y, (j < np.argmax_from best best_i (length seen) xs)%nat →
              (seen ++ xs) !! j = Some y → (y < m)%R.
Proof.
  revert seen best best_i. induction xs as [|x xs IH]; intros seen best best_i Hbest Hle Hfirst.
  - simpl. rewrite app_nil_r. by exists best.
  - simpl. replace (seen ++ x :: xs) with ((seen ++ [x]) ++ xs)
      by (by rewrite <- app_assoc).
    replace (S (length seen)) with (length (seen ++ [x]))
      by (rewrite length_app; simpl; lia).
    case_bool_decide as Hcmp.
    + apply IH.
      * by rewrite lookup_app_r, Nat.sub_diag.
      * apply Forall_app. split.
        -- eapply Forall_impl; [exact Hle|]. simpl. intros y Hy. lra.
        -- constructor; [lra|constructor].
      * intros j y Hj Hy. rewrite lookup_app_l in Hy by done.
        rewrite Forall_forall in Hle.
        assert (y <= best)%R by (apply Hle; by eapply list_elem_of_lookup_2). lra.
    + apply IH.
      * rewrite lookup_app_l; [done|]. by eapply lookup_lt_Some.
      * apply Forall_app. split; [done|]. constructor; [lra|constructor].
      * intros j y Hj Hy. apply (Hfirst j y Hj).
        rewrite lookup_app_l in Hy; [done|].
        apply lookup_lt_Some in Hbest. lia.
Qed.

(** [np.argmax] returns the first position of the largest value. *)
Lemma argmax_spec xs k :
  np.argmax xs = Ok k →
  ∃ m, xs !! k = Some m ∧
       Forall (λ y, (y <= m)%R) xs ∧
       ∀ j y, (j < k)%nat → xs !! j = Some y → (y < m)%R.
Proof.
  destruct xs as [|x xs]; simpl; [discriminate|]. intros [= <-].
  apply (argmax_from_spec [x] x 0%nat xs); [done| |].
  - constructor; [lra|constructor].
  - intros j y Hj. lia.
Qed.

Lemma argmax_nil : np.argmax [] = Raise ValueError.
Proof. done. Qed.


End argmax_lemmas.

(** ** The box of an agent, for every yaw *)

Section box_shape.
Import zarr_utils.
Local Open Scope R_scope.

(** X1.  Whatever the yaw, the box of an agent is a rectangle around its
    centroid: the two diagonals have the centroid as midpoint, the sides
    have the lengths W, L, W, L of the extent, and neighbouring sides are
    perpendicular. *)
Theorem box_is_rectangle a :
  let L := (extent a).1.1 in
  let W := (extent a).1.2 in
  let cx := (centroid a).1 in
  let cy := (centroid a).2 in
  ∃ p0 p1 p2 p3,
    box_of a = [p0; p1; p2; p3] ∧
    (p0.1 + p2.1 = 2 * cx ∧ p0.2 + p2.2 = 2 * cy) ∧
    (p1.1 + p3.1 = 2 * cx ∧ p1.2 + p3.2 = 2 * cy) ∧
    (dist2 p0 p1 = W * W ∧ dist2 p1 p2 = L * L ∧
     dist2 p2 p3 = W * W ∧ dist2 p3 p0 = L * L) ∧
    (dot p0 p1 p2 = 0 ∧ dot p1 p2 p3 = 0 ∧ dot p2 p3 p0 = 0 ∧ dot p3 p0 p1 = 0).
Proof.
  cbv zeta. rewrite box_of_corners. cbv zeta.
  pose proof (sin2_cos2 (yaw a)) as Hunit. unfold Rsqr in Hunit.
  set (s := sin (yaw a)) in *. set (c := cos (yaw a)) in *.
  set (L := (extent a).1.1). set (W := (extent a).1.2).
  eexists _, _, _, _. split; [reflexivity|].
  unfold dist2, dot. cbn [fst snd].
  clearbody s c L W.
  repeat split; try lra.
  - transitivity (W * W * (s * s + c * c)); [lra | rewrite Hunit; ring].
  - transitivity (L * L * (s * s + c * c)); [lra | rewrite Hunit; ring].
  - transitivity (W * W * (s * s + c * c)); [lra | rewrite Hunit; ring].
  - transitivity (L * L * (s * s + c * c)); [lra | rewrite Hunit; ring].
Qed.

(** X2.  The rotation is counter-clockwise: at a yaw of a quarter turn the
    length of the agent lies along the y axis and its width along the x
    axis, and the corner that was at (-L/2, -W/2) is at (+W/2, -L/2). *)
Theorem box_quarter_turn a :
  yaw a = PI / 2 →
  let L := (extent a).1.1 in
  let W := (extent a).1.2 in
  let cx := (centroid a).1 in
  let cy := (centroid a).2 in
  box_of a =
    [ (cx + W / 2, cy - L / 2);
      (cx - W / 2, cy - L / 2);
      (cx - W / 2, cy + L / 2);
      (cx + W / 2, cy + L / 2) ].
Proof.
  intros Hyaw. cbv zeta. rewrite box_of_corners. cbv zeta.
  rewrite Hyaw, sin_PI2, cos_PI2. points_eq; lra.
Qed.

End box_shape.

(** ** More on the lane colour *)

Section lane_colour_more.
Import zarr_utils.

(** The colours of the table. *)
Lemma COLORS_values name colour :
  COLORS !! name = Some colour →
  colour ∈ [ "#33CC33"; "#FF3300"; "#FFFF66"; "#1F77B4"; "#CC33FF"; "#66CCFF" ].
Proof.
  unfold COLORS. intros Hin%elem_of_list_to_map_2.
  repeat (apply elem_of_cons in Hin as [Heq|Hin];
          [injection Heq as _ ->; set_solver|]).
  by apply elem_of_nil in Hin.
Qed.

Lemma colour_of_face_values mapAPI tl_id colour :
  colour_of_face mapAPI tl_id = Ok colour → ∃ name, COLORS !! name = Some colour.
Proof.
  unfold colour_of_face. intros (name & _ & Hget)%bind_Ok. exists name.
  unfold np.dict_get in Hget. destruct (COLORS !! name); by inversion Hget.
Qed.

(** The loop returns exactly when every control point has a colour. *)
Lemma lane_colour_loop_is_Ok mapAPI c tl_ids :
  is_Ok (lane_colour_loop mapAPI c tl_ids) ↔
  Forall (λ tl_id, is_Ok (colour_of_face mapAPI tl_id)) tl_ids.
Proof.
  revert c. induction tl_ids as [|tl_id rest IH]; intros c.
  - split; [constructor|]. intros _. by exists c.
  - rewrite lane_colour_loop_cons, Forall_cons.
    destruct (colour_of_face mapAPI tl_id) as [c'|e]; simpl.
    + rewrite IH. split; [|tauto]. intros Hrest. split; [by exists c'|done].
    + split; [by intros [? ?]|]. by intros [[? ?] _].
Qed.

(** The loop returns the initial colour or a colour of the table. *)
Lemma lane_colour_loop_values mapAPI c tl_ids colour :
  lane_colour_loop mapAPI c tl_ids = Ok colour →
  colour = c ∨ ∃ name, COLORS !! name = Some colour.
Proof.
  revert c. induction tl_ids as [|tl_id rest IH]; intros c.
  - intros [= <-]. by left.
  - rewrite lane_colour_loop_cons. intros (c' & Hc' & Hrest)%bind_Ok.
    destruct (IH c' Hrest) as [-> | ?]; [|by right].
    right. by eapply colour_of_face_values.
Qed.

(** When every control point gives the same colour, the order of the loop
    does not matter. *)
Lemma lane_colour_loop_same mapAPI c tl_ids colour :
  tl_ids ≠ [] →
  Forall (λ tl_id, colour_of_face mapAPI tl_id = Ok colour) tl_ids →
  lane_colour_loop mapAPI c tl_ids = Ok colour.
Proof.
  intros Hne Hall. revert c. induction Hall as [|tl_id rest Hc _ IH]; [done|].
  intros c. rewrite lane_colour_loop_cons, Hc. simpl.
  destruct rest as [|tl_id' rest]; [done|]. by apply IH.
Qed.

Context (set_iter : gset string → list string).

(** X3.  A lane is drawn in gray or in one of the six colours of the table,
    whatever the map answers. *)
Theorem lane_colour_in_table mapAPI (lane_tl_ids active_tl_ids : gset string) colour :
  lane_colour_of set_iter mapAPI lane_tl_ids active_tl_ids = Ok colour →
  colour ∈ [ "gray"; "#33CC33"; "#FF3300"; "#FFFF66";
             "#1F77B4"; "#CC33FF"; "#66CCFF" ].
Proof.
  unfold lane_colour_of. intros [-> | (name & Hname)]%lane_colour_loop_values.
  - left.
  - right. by eapply COLORS_values.
Qed.

(** X4.  The colour of a lane is found exactly when every active control
    point of the lane has a colour in the table, not the last one only: one
    that has none makes the loop raise, in whatever order the set is
    enumerated. *)
Theorem lane_colour_found_iff mapAPI (lane_tl_ids active_tl_ids : gset string) :
  (∀ s, set_iter s ≡ₚ elements s) →
  is_Ok (lane_colour_of set_iter mapAPI lane_tl_ids active_tl_ids) ↔
  ∀ tl_id, tl_id ∈ lane_tl_ids → tl_id ∈ active_tl_ids →
           is_Ok (colour_of_face mapAPI tl_id).
Proof.
  intros Hperm. unfold lane_colour_of.
  rewrite lane_colour_loop_is_Ok, Forall_forall. split.
  - intros Hall tl_id Hlane Hactive. apply Hall.
    rewrite Hperm. apply elem_of_elements. set_solver.
  - intros Hall tl_id Hin. rewrite Hperm in Hin.
    apply elem_of_elements, elem_of_intersection in Hin as [? ?]. by apply Hall.
Qed.

(** X5.  When the active control points of a lane all show the same colour,
    the lane takes that colour in whatever order the set is enumerated. *)
Theorem lane_colour_order_independent mapAPI
    (lane_tl_ids active_tl_ids : gset string) colour :
  (∀ s, set_iter s ≡ₚ elements s) →
  lane_tl_ids ∩ active_tl_ids ≠ ∅ →
  (∀ tl_id, tl_id ∈ lane_tl_ids → tl_id ∈ active_tl_ids →
            colour_of_face mapAPI tl_id = Ok colour) →
  lane_colour_of set_iter mapAPI lane_tl_ids active_tl_ids = Ok colour.
Proof.
  intros Hperm Hne Hall. unfold lane_colour_of. apply lane_colour_loop_same.
  - intros Hnil. apply Hne. apply leibniz_equiv, elements_empty_inv.
    apply Permutation_nil_r. by rewrite <- Hperm, Hnil.
  - apply Forall_forall. intros tl_id Hin. rewrite Hperm in Hin.
    apply elem_of_elements, elem_of_intersection in Hin as [? ?]. by apply Hall.
Qed.

End lane_colour_more.

(** ** More on trajectories *)

Section trajectories_more.
Import l5kit zarr_utils.

Lemma agent_trajectory_same_length frames agents_frames frame_index tid :
  length (traj_xs (agent_trajectory frames agents_frames frame_index tid)) =
  length (traj_ys (agent_trajectory frames agents_frames frame_index tid)).
Proof.
  rewrite agent_trajectory_unfold. cbv zeta. cbn [traj_xs traj_ys].
  by rewrite !bool_index_map, !length_map.
Qed.

Lemma ego_trajectory_same_length frames agents_frames frame_index :
  length (traj_xs (ego_trajectory frames agents_frames frame_index)) =
  length (traj_ys (ego_trajectory frames agents_frames frame_index)).
Proof.
  rewrite ego_trajectory_unfold. cbv zeta. cbn [traj_xs traj_ys].
  by rewrite !bool_index_map, !length_map.
Qed.

Lemma trajectories_same_length frames agents_frames track_ids frame_index :
  Forall (λ t, length (traj_xs t) = length (traj_ys t))
         (_get_frame_trajectories frames agents_frames track_ids frame_index).
Proof.
  unfold _get_frame_trajectories. apply Forall_app. split.
  - apply Forall_forall. intros t (tid & -> & _)%list_elem_of_fmap.
    apply agent_trajectory_same_length.
  - constructor; [|constructor]. apply ego_trajectory_same_length.
Qed.

Lemma trajectories_track_ids frames agents_frames track_ids frame_index :
  map traj_track_id (_get_frame_trajectories frames agents_frames track_ids frame_index)
    = track_ids ++ [(-1)%Z].
Proof.
  unfold _get_frame_trajectories. rewrite map_app, map_map. simpl. f_equal.
  induction track_ids as [|tid track_ids IH]; [done|]. simpl. by rewrite IH.
Qed.

(** X6.  The trajectories come in the order of the request, each with the
    track identifier it was asked for, in blue and labelled as an agent
    trajectory; the ego trajectory comes last, with identifier -1, in red.
    Every trajectory has as many xs as ys. *)
Theorem trajectories_labelled frames agents_frames track_ids frame_index :
  let trajs := _get_frame_trajectories frames agents_frames track_ids frame_index in
  map traj_track_id trajs = track_ids ++ [(-1)%Z] ∧
  map legend_label trajs =
    replicate (length track_ids) "agent_trajectory" ++ ["ego_trajectory"] ∧
  map traj_color trajs = replicate (length track_ids) "blue" ++ ["red"] ∧
  Forall (λ t, length (traj_xs t) = length (traj_ys t)) trajs.
Proof.
  cbv zeta. split; [apply trajectories_track_ids|].
  split; [|split; [|apply trajectories_same_length]].
  - unfold _get_frame_trajectories. rewrite map_app, map_map. simpl. f_equal.
    induction track_ids as [|tid track_ids IH]; [done|]. simpl. by rewrite IH.
  - unfold _get_frame_trajectories. rewrite map_app, map_map. simpl. f_equal.
    induction track_ids as [|tid track_ids IH]; [done|]. simpl. by rewrite IH.
Qed.

End trajectories_more.

(** ** More on one frame and on the scene *)

Section conversion_more.
Import l5kit zarr_utils.

Context (get_ego_as_agent : Frame → Agent)
        (indices_in_bounds : Point2 → list Bounds → R → list nat)
        (PERCEPTION_LABELS : list string)
        (set_iter : gset string → list string).

Abbreviation get_frame_data :=
  (_get_frame_data get_ego_as_agent indices_in_bounds PERCEPTION_LABELS set_iter).
Abbreviation convert :=
  (zarr_to_visualizer_scene get_ego_as_agent indices_in_bounds PERCEPTION_LABELS set_iter).
Abbreviation convert_frame :=
  (frame_vis_at get_ego_as_agent indices_in_bounds PERCEPTION_LABELS set_iter).
Abbreviation lanes_loop mapAPI frame tls_frame :=
  (mapM (lane_vis set_iter mapAPI
           (list_to_set (map face_id (filter_tl_faces_by_status tls_frame ACTIVE))))
        (indices_in_bounds (xy (ego_translation frame))
                           (bounds (bounds_info_lanes mapAPI)) 50%R)).
Abbreviation crosswalks_loop mapAPI frame :=
  (mapM (crosswalk_vis mapAPI)
        (indices_in_bounds (xy (ego_translation frame))
                           (bounds (bounds_info_crosswalks mapAPI)) 50%R)).
Abbreviation agents_loop agents_frame :=
  (mapM (agent_vis PERCEPTION_LABELS)
        (zip agents_frame (box_world_coords agents_frame))).

(** What [agent_vis] returns, field by field. *)
Lemma agent_vis_Ok a box av :
  agent_vis PERCEPTION_LABELS (a, box) = Ok av ↔
  ∃ k type prob,
    np.argmax (label_probabilities a) = Ok k ∧
    PERCEPTION_LABELS !! k = Some type ∧
    label_probabilities a !! k = Some prob ∧
    av = {| agent_xs := map fst box;
            agent_ys := map snd box;
            agent_color := default "#1F77B4" (COLORS !! type);
            agent_track_id := track_id a;
            agent_type := type;
            agent_prob := prob |}.
Proof.
  unfold agent_vis, np.getitem. split.
  - destruct (np.argmax (label_probabilities a)) as [k|]; simpl; [|discriminate].
    destruct (PERCEPTION_LABELS !! k) as [type|] eqn:Htype; simpl; [|discriminate].
    destruct (label_probabilities a !! k) as [prob|] eqn:Hprob; simpl; [|discriminate].
    intros [= <-]. by exists k, type, prob.
  - intros (k & type & prob & -> & Htype & Hprob & ->). simpl.
    rewrite Htype. simpl. by rewrite Hprob.
Qed.

Lemma zip_boxes_lookup agents_frame i a :
  agents_frame !! i = Some a →
  zip agents_frame (box_world_coords agents_frame) !! i = Some (a, box_of a).
Proof.
  unfold box_world_coords. revert i.
  induction agents_frame as [|b agents_frame IH]; intros [|i] Hi; try done.
  - by injection Hi as ->.
  - by apply IH.
Qed.

Lemma zip_boxes_elem a box agents_frame :
  (a, box) ∈ zip agents_frame (box_world_coords agents_frame) → box = box_of a.
Proof.
  unfold box_world_coords.
  induction agents_frame as [|b agents_frame IH]; simpl.
  - by intros ?%elem_of_nil.
  - intros [[= -> ->] | Hin]%elem_of_cons; [done|]. by apply IH.
Qed.

(** The agent visualisations carry the track identifiers of the agents, in
    order. *)
Lemma agents_loop_track_ids agents_frame avs :
  agents_loop agents_frame = Ok avs →
  map agent_track_id avs = map track_id agents_frame.
Proof.
  intros Hall%mapM_Ok_1. unfold box_world_coords in Hall. revert avs Hall.
  induction agents_frame as [|a agents_frame IH]; intros avs Hall; simpl in Hall.
  - by inversion Hall.
  - inversion Hall as [|? av ? avs' Hav Hrest]; subst. simpl.
    apply agent_vis_Ok in Hav as (k & type & prob & _ & _ & _ & ->). simpl.
    f_equal. by apply IH.
Qed.

(** The polygons that [_get_frame_data] builds are well formed. *)
Lemma get_frame_data_well_formed mapAPI frame agents_frame tls_frame fv :
  get_frame_data mapAPI frame agents_frame tls_frame = Ok fv →
  well_formed_frame fv.
Proof.
  intros (lanes_vis & cws & avs & Hlanes & Hcws & Havs & ->)%get_frame_data_Ok.
  unfold well_formed_frame. cbn [ego agents_vis lanes crosswalks trajectories
    ego_xs ego_ys].
  split; [by rewrite !length_map, box_of_length|].
  split; [|split; [|split; [|constructor]]].
  - eapply mapM_Ok_Forall; [exact Havs|]. intros [a box] av Hin Hav.
    apply zip_boxes_elem in Hin as ->.
    apply agent_vis_Ok in Hav as (k & type & prob & _ & _ & _ & ->).
    cbn [agent_xs agent_ys]. by rewrite !length_map, box_of_length.
  - eapply mapM_Ok_Forall; [exact Hlanes|]. intros idx lv _ Hlv.
    unfold lane_vis in Hlv.
    apply bind_Ok in Hlv as (lane_id & _ & Hlv).
    apply bind_Ok in Hlv as (tl & _ & Hlv).
    apply bind_Ok in Hlv as (colour & _ & Hlv).
    apply bind_Ok in Hlv as (coords & _ & [= <-]).
    cbn [lane_xs lane_ys]. by rewrite !length_app, !length_map.
  - eapply mapM_Ok_Forall; [exact Hcws|]. intros idx cw _ Hcw.
    unfold crosswalk_vis in Hcw.
    apply bind_Ok in Hcw as (cw_id & _ & Hcw).
    apply bind_Ok in Hcw as (coords & _ & [= <-]).
    cbn [cw_xs cw_ys]. by rewrite !length_map.
Qed.

(** What one step of the scene loop returns. *)
Lemma convert_frame_Ok mapAPI wt frames agents_frames tls_frames i fv :
  convert_frame mapAPI wt frames agents_frames tls_frames i = Ok fv →
  ∃ frame tls_frame agents_frame fd,
    frames !! i = Some frame ∧ tls_frames !! i = Some tls_frame ∧
    agents_frames !! i = Some agents_frame ∧
    get_frame_data mapAPI frame (filter_agents_by_labels agents_frame 0.1%R) tls_frame
      = Ok fd ∧
    fv = if wt
         then with_trajectories_of
                (_get_frame_trajectories frames agents_frames
                   (map track_id (filter_agents_by_labels agents_frame 0.1%R)) i) fd
         else fd.
Proof.
  unfold frame_vis_at, np.getitem.
  destruct (frames !! i) as [frame|]; simpl; [|discriminate].
  destruct (tls_frames !! i) as [tls_frame|]; simpl; [|discriminate].
  destruct (agents_frames !! i) as [agents_frame|]; simpl; [|discriminate].
  destruct (get_frame_data _ _ _ _) as [fd|] eqn:Hfd; simpl; [|discriminate].
  intros Hfv. exists frame, tls_frame, agents_frame, fd.
  repeat split; try done. destruct wt; by injection Hfv as <-.
Qed.

(** X7.  [_get_frame_data] raises exactly when one of its three loops does,
    and then raises the exception of the first loop that fails: lanes
    before crosswalks before agents.  Building the ego polygon never
    raises. *)
Theorem frame_data_raise_order mapAPI frame agents_frame tls_frame e :
  get_frame_data mapAPI frame agents_frame tls_frame = Raise e ↔
  lanes_loop mapAPI frame tls_frame = Raise e ∨
  (is_Ok (lanes_loop mapAPI frame tls_frame) ∧
   crosswalks_loop mapAPI frame = Raise e) ∨
  (is_Ok (lanes_loop mapAPI frame tls_frame) ∧
   is_Ok (crosswalks_loop mapAPI frame) ∧
   agents_loop agents_frame = Raise e).
Proof.
  unfold _get_frame_data.
  change (box_world_coords (?a :: ?l)) with (box_of a :: box_world_coords l).
  cbv zeta.
  destruct (lanes_loop mapAPI frame tls_frame) as [lanes_vis|e1]; simpl.
  - destruct (crosswalks_loop mapAPI frame) as [cws|e2]; simpl.
    + destruct (agents_loop agents_frame) as [avs|e3]; simpl.
      * split; [discriminate|].
        intros [? | [[_ ?] | (_ & _ & ?)]]; discriminate.
      * split.
        -- intros [= ->]. right. right. repeat split; eauto; by eexists.
        -- by intros [? | [[_ ?] | (_ & _ & [= ->])]].
    + split.
      * intros [= ->]. right. left. split; [by eexists|done].
      * intros [? | [[_ [= ->]] | (_ & [? ?] & _)]]; done.
  - split.
    + intros [= ->]. by left.
    + intros [[= ->] | [[[? ?] _] | ([? ?] & _)]]; done.
Qed.

(** X8.  The agent visualisations of a frame are those of its agents, one
    each and in the same order, with their track identifiers: the ego
    vehicle, put in front of the batch for the geometry, is not among
    them. *)
Theorem agents_in_order mapAPI frame agents_frame tls_frame fv :
  get_frame_data mapAPI frame agents_frame tls_frame = Ok fv →
  length (agents_vis fv) = length agents_frame ∧
  map agent_track_id (agents_vis fv) = map track_id agents_frame.
Proof.
  intros (lanes_vis & cws & avs & _ & _ & Havs & ->)%get_frame_data_Ok.
  cbn [agents_vis]. pose proof (agents_loop_track_ids _ _ Havs) as Hids.
  split; [|done]. by rewrite <- (length_map agent_track_id), Hids, length_map.
Qed.

(** X9.  The type shown for an agent is the label at the first position
    where its label probabilities are largest, and the probability shown is
    that largest probability; the colour is the colour of the type in the
    table, or #1F77B4 when the type has none. *)
Theorem agent_label_is_most_probable mapAPI frame agents_frame tls_frame fv i a :
  get_frame_data mapAPI frame agents_frame tls_frame = Ok fv →
  agents_frame !! i = Some a →
  ∃ av k,
    agents_vis fv !! i = Some av ∧
    label_probabilities a !! k = Some (agent_prob av) ∧
    PERCEPTION_LABELS !! k = Some (agent_type av) ∧
    Forall (λ p, (p <= agent_prob av)%R) (label_probabilities a) ∧
    (∀ j p, (j < k)%nat → label_probabilities a !! j = Some p →
            (p < agent_prob av)%R) ∧
    agent_color av = default "#1F77B4" (COLORS !! agent_type av).
Proof.
  intros (lanes_vis & cws & avs & _ & _ & Havs & ->)%get_frame_data_Ok Hi.
  apply mapM_Ok_1 in Havs.
  destruct (Forall2_lookup_l _ _ _ _ _ Havs (zip_boxes_lookup _ _ _ Hi))
    as (av & Hav & Hbuilt).
  apply agent_vis_Ok in Hbuilt as (k & type & prob & Hk & Htype & Hprob & ->).
  destruct (argmax_spec _ _ Hk) as (m & Hm & Hmax & Hfirst).
  assert (m = prob) as -> by congruence.
  eexists; exists k. cbn [agents_vis]. split; [exact Hav|].
  cbn [agent_prob agent_type agent_color]. by repeat split.
Qed.


(** X11.  When the conversion of a single scene raises, it raises the
    exception of the first frame that cannot be built: every frame before
    it was built, and nothing is returned for them. *)
Theorem conversion_raises_first_failing_frame ds mapAPI wt e :
  length (scenes ds) = 1%nat →
  convert ds mapAPI wt = Raise e ↔
  ∃ i, (i < length (frames ds))%nat ∧
       convert_frame mapAPI wt (frames ds)
         (filter_agents_by_frames (frames ds) (agents ds))
         (filter_tl_faces_by_frames (frames ds) (tl_faces ds)) i = Raise e ∧
       ∀ j, (j < i)%nat →
            is_Ok (convert_frame mapAPI wt (frames ds)
                     (filter_agents_by_frames (frames ds) (agents ds))
                     (filter_tl_faces_by_frames (frames ds) (tl_faces ds)) j).
Proof.
  intros Hone. unfold zarr_to_visualizer_scene. rewrite decide_False by lia.
  cbv zeta. rewrite mapM_Raise_first. split.
  - intros (i & x & [-> Hi]%lookup_seq & Hraise & Hbefore).
    exists i. repeat split; try done. intros j Hj.
    apply (Hbefore j j); [done|]. apply lookup_seq. split; [done|lia].
  - intros (i & Hi & Hraise & Hbefore). exists i, i.
    split; [by apply lookup_seq|]. split; [done|].
    intros j y Hj [-> _]%lookup_seq. by apply Hbefore.
Qed.

(** X12.  With trajectories, every frame of the result has one trajectory
    per agent it shows, in the same order and with the same track
    identifier, and the trajectory of ego (identifier -1) after them. *)
Theorem trajectories_follow_agents ds mapAPI out :
  convert ds mapAPI true = Ok out →
  Forall (λ fv, map traj_track_id (trajectories fv)
                  = map agent_track_id (agents_vis fv) ++ [(-1)%Z]) out.
Proof.
  unfold zarr_to_visualizer_scene. case_decide; [discriminate|]. cbv zeta.
  intros Hout. eapply mapM_Ok_Forall; [exact Hout|].
  intros i fv _ (frame & tls_frame & agents_frame & fd & _ & _ & _ & Hfd & ->)
    %convert_frame_Ok.
  cbn [with_trajectories_of trajectories agents_vis].
  rewrite trajectories_track_ids.
  apply get_frame_data_Ok in Hfd as (? & ? & avs & _ & _ & Havs & ->).
  cbn [agents_vis]. by rewrite (agents_loop_track_ids _ _ Havs).
Qed.

(** X13.  Every frame that the conversion returns is well formed: the ego
    and every agent have four xs and four ys, and every lane, crosswalk and
    trajectory has as many xs as ys. *)
Theorem frames_well_formed ds mapAPI wt out :
  convert ds mapAPI wt = Ok out →
  Forall well_formed_frame out.
Proof.
  unfold zarr_to_visualizer_scene. case_decide; [discriminate|]. cbv zeta.
  intros Hout. eapply mapM_Ok_Forall; [exact Hout|].
  intros i fv _ (frame & tls_frame & agents_frame & fd & _ & _ & _ & Hfd & ->)
    %convert_frame_Ok.
  apply get_frame_data_well_formed in Hfd. destruct wt; [|done].
  destruct Hfd as (Hego & Hagents & Hlanes & Hcws & _).
  unfold well_formed_frame.
  cbn [with_trajectories_of ego agents_vis lanes crosswalks trajectories].
  repeat split; try done; try apply Hego. apply trajectories_same_length.
Qed.

End conversion_more.

(** ** More on the reward *)

Section getitem_lemmas.
Context {A : Type}.

Lemma getitem_int_elem (xs : list A) i x : np.getitem_int xs i = Ok x → x ∈ xs.
Proof.
  unfold np.getitem_int, np.getitem. repeat case_decide; try discriminate.
  - destruct (xs !! Z.to_nat i) eqn:Hi; [|discriminate].
    intros [= <-]. by eapply list_elem_of_lookup_2.
  - destruct (xs !! Z.to_nat (Z.of_nat (length xs) + i)) eqn:Hi; [|discriminate].
    intros [= <-]. by eapply list_elem_of_lookup_2.
Qed.

Lemma getitem_int_beyond (xs : list A) i :
  (Z.of_nat (length xs) ≤ i)%Z → np.getitem_int xs i = Raise IndexError.
Proof.
  intros Hi. unfold np.getitem_int, np.getitem. rewrite decide_True by lia.
  by rewrite lookup_ge_None_2 by lia.
Qed.

End getitem_lemmas.

Section reward_more.
Import reward.

Context (MetricSet : Type)
        (evaluate : MetricSet → list SimulationOutputCLE → result MetricSet)
        (scene_metric_results : MetricSet → gmap Z (gmap string (list R))).

Abbreviation reward_of := (get_reward MetricSet evaluate scene_metric_results).

(** X14.  A reward whose [yaw_weight] is [None] never returns a reward, not
    even when [use_yaw] is off: the yaw error is weighted before [use_yaw] is
    looked at, and when everything before that succeeds the call raises
    [TypeError]. *)
Theorem get_reward_needs_yaw_weight self metric_set frame_index simulated_outputs :
  yaw_weight self = None →
  (∀ r, reward_of self metric_set frame_index simulated_outputs ≠ Ok r) ∧
  (∀ first metric_set' scene_metrics displacement dist_error yaw_errors yaw_error_at,
     simulated_outputs !! 0%nat = Some first →
     evaluate metric_set simulated_outputs = Ok metric_set' →
     scene_metric_results metric_set' !! scene_id first = Some scene_metrics →
     scene_metrics !! "displacement_error_l2" = Some displacement →
     np.getitem_int displacement (frame_index + 1) = Ok dist_error →
     scene_metrics !! "yaw_error_closest_angle" = Some yaw_errors →
     np.getitem_int yaw_errors (frame_index + 1) = Ok yaw_error_at →
     reward_of self metric_set frame_index simulated_outputs = Raise TypeError).
Proof.
  intros Hnone. split.
  - intros [d ms'] (? & ? & ? & ? & ? & ? & w & _ & _ & _ & _ & _ & _ & _ & Hw & _)
      %get_reward_Ok. congruence.
  - intros first ms' sm ds d ys y H1 H2 H3 H4 H5 H6 H7.
    unfold get_reward, np.getitem, np.dict_get.
    rewrite H1. simpl. rewrite H2. simpl. rewrite H3. simpl. rewrite H4. simpl.
    rewrite H5. simpl. rewrite H6. simpl. rewrite H7. simpl. by rewrite Hnone.
Qed.

(** X15.  The reward of frame [frame_index] is read at position
    [frame_index + 1] of the metrics: when the displacement errors of the
    scene have no such position (the last frame of the episode, for one),
    the call raises [IndexError]. *)
Theorem get_reward_beyond_last_frame self metric_set frame_index simulated_outputs
    first metric_set' scene_metrics displacement :
  simulated_outputs !! 0%nat = Some first →
  evaluate metric_set simulated_outputs = Ok metric_set' →
  scene_metric_results metric_set' !! scene_id first = Some scene_metrics →
  scene_metrics !! "displacement_error_l2" = Some displacement →
  (Z.of_nat (length displacement) ≤ frame_index + 1)%Z →
  reward_of self metric_set frame_index simulated_outputs = Raise IndexError.
Proof.
  intros H1 H2 H3 H4 Hlen. unfold get_reward, np.getitem, np.dict_get.
  rewrite H1. simpl. rewrite H2. simpl. rewrite H3. simpl. rewrite H4. simpl.
  by rewrite getitem_int_beyond.
Qed.

(** X16.  [get_reward] evaluates the metric set once, on the outputs it was
    given: an exception of the evaluation is the exception of the call, and
    when the call returns, the metric set it leaves is the evaluated one.
    The scene read is that of the first output. *)
Theorem get_reward_evaluates_once self metric_set frame_index simulated_outputs :
  simulated_outputs ≠ [] →
  (∀ e, evaluate metric_set simulated_outputs = Raise e →
        reward_of self metric_set frame_index simulated_outputs = Raise e) ∧
  (∀ d metric_set',
     reward_of self metric_set frame_index simulated_outputs = Ok (d, metric_set') →
     evaluate metric_set simulated_outputs = Ok metric_set' ∧
     ∃ first, head simulated_outputs = Some first ∧
              is_Some (scene_metric_results metric_set' !! scene_id first)).
Proof.
  intros Hne. split.
  - intros e He. unfold get_reward, np.getitem.
    destruct simulated_outputs as [|first rest]; [done|]. simpl. by rewrite He.
  - intros d ms' (first & sm & ? & ? & ? & ? & ? & H1 & H2 & H3 & _)%get_reward_Ok.
    split; [done|]. exists first. split; [|by eexists].
    by destruct simulated_outputs.
Qed.

(** X17.  With clipping, the distance reward is the displacement error
    clipped from above at the threshold, negated: the error itself while it
    is below the threshold, the threshold from there on.  The yaw reward is
    the weighted yaw error, negated, and is not clipped. *)
Theorem reward_clips_the_error self metric_set frame_index simulated_outputs
    first metric_set' scene_metrics displacement dist_error yaw_errors yaw_error_at
    weight :
  simulated_outputs !! 0%nat = Some first →
  evaluate metric_set simulated_outputs = Ok metric_set' →
  scene_metric_results metric_set' !! scene_id first = Some scene_metrics →
  scene_metrics !! "displacement_error_l2" = Some displacement →
  np.getitem_int displacement (frame_index + 1) = Ok dist_error →
  scene_metrics !! "yaw_error_closest_angle" = Some yaw_errors →
  np.getitem_int yaw_errors (frame_index + 1) = Ok yaw_error_at →
  yaw_weight self = Some weight →
  enable_clip self = true →
  use_yaw self = Some true →
  ∃ d, reward_of self metric_set frame_index simulated_outputs = Ok (d, metric_set') ∧
       d !! "distance" = Some (- Rmin dist_error (rew_clip_thresh self))%R ∧
       d !! "yaw" = Some (- (weight * yaw_error_at))%R.
Proof.
  intros H1 H2 H3 H4 H5 H6 H7 Hw Hclip Hyaw. eexists. split.
  - apply get_reward_Ok.
    exists first, scene_metrics, displacement, dist_error, yaw_errors,
           yaw_error_at, weight. by repeat split.
  - cbv zeta. rewrite Hclip, Hyaw. cbn [truthy default Datatypes.id].
    cbn [list_to_map foldr uncurry fst snd]. split.
    + rewrite lookup_insert_ne by done. rewrite lookup_insert_eq. f_equal.
      unfold np.max, Rmin. case_bool_decide; destruct (Rle_dec _ _); lra.
    + rewrite !lookup_insert_ne by done. rewrite lookup_insert_eq. f_equal. lra.
Qed.

(** X18.  When the errors are not negative, as distances and angles are, and
    the threshold and the weight are not negative either, no component of
    the reward is positive. *)
Theorem reward_never_positive self metric_set frame_index simulated_outputs
    d metric_set' weight :
  reward_of self metric_set frame_index simulated_outputs = Ok (d, metric_set') →
  metric_entries (λ x, 0 <= x)%R "displacement_error_l2"
                 (scene_metric_results metric_set') →
  metric_entries (λ x, 0 <= x)%R "yaw_error_closest_angle"
                 (scene_metric_results metric_set') →
  (0 <= rew_clip_thresh self)%R →
  yaw_weight self = Some weight → (0 <= weight)%R →
  ∀ key value, d !! key = Some value → (value <= 0)%R.
Proof.
  intros (first & sm & ds & dist & ys & y & w & _ & _ & H3 & H4 & H5 & H6 & H7 & Hw & ->)
    %get_reward_Ok Hdist Hyaw Hthresh Hweight Hpos key value.
  assert (w = weight) as -> by congruence.
  assert (0 <= dist)%R as Hd.
  { pose proof (Hdist _ _ _ H3 H4) as Hall. rewrite Forall_forall in Hall.
    apply Hall. by eapply getitem_int_elem. }
  assert (0 <= y)%R as Hy.
  { pose proof (Hyaw _ _ _ H3 H6) as Hall. rewrite Forall_forall in Hall.
    apply Hall. by eapply getitem_int_elem. }
  assert (0 <= weight * y)%R as Hwy by (by apply Rmult_le_pos).
  cbv zeta.
  assert ((if enable_clip self
           then np.max (- rew_clip_thresh self) (- dist) else (- dist)%R) <= 0)%R
    as Hdr.
  { destruct (enable_clip self); [|lra]. unfold np.max. case_bool_decide; lra. }
  assert ((if truthy (use_yaw self) then (0 - weight * y)%R else 0%R) <= 0)%R as Hyr.
  { destruct (truthy (use_yaw self)); lra. }
  cbn [list_to_map foldr uncurry fst snd]. intros Hkey.
  apply lookup_insert_Some in Hkey as [[_ <-] | [_ Hkey]]; [lra|].
  apply lookup_insert_Some in Hkey as [[_ <-] | [_ Hkey]]; [lra|].
  apply lookup_insert_Some in Hkey as [[_ <-] | [_ Hkey]]; [lra|].
  by rewrite lookup_empty in Hkey.
Qed.

End reward_more.

Section reward_default.
Import reward reward_object.

Context (MetricSet : Type)
        (L5GymCLEMetricSet : MetricSet)
        (evaluate : MetricSet → list SimulationOutputCLE → result MetricSet)
        (scene_metric_results : MetricSet → gmap Z (gmap string (list R))).

(** X19.  A reward built with every argument at its default uses the gym
    metric set, clips at 15 and weighs the yaw error by 20: when the
    displacement errors are not negative and the yaw errors lie between 0
    and pi, its total lies between -15 - 20 pi and 0. *)
Theorem default_reward_range frame_index simulated_outputs d metric_set' total :
  let self := (default_reward MetricSet L5GymCLEMetricSet).1 in
  let metric_set := (default_reward MetricSet L5GymCLEMetricSet).2 in
  get_reward MetricSet evaluate scene_metric_results self metric_set frame_index
             simulated_outputs = Ok (d, metric_set') →
  metric_entries (λ x, 0 <= x)%R "displacement_error_l2"
                 (scene_metric_results metric_set') →
  metric_entries (λ x, 0 <= x <= PI)%R "yaw_error_closest_angle"
                 (scene_metric_results metric_set') →
  d !! "total" = Some total →
  metric_set = L5GymCLEMetricSet ∧ (- 15 - 20 * PI <= total <= 0)%R.
Proof.
  intros self metric_set
    (first & sm & ds & dist & ys & y & w & _ & _ & H3 & H4 & H5 & H6 & H7 & Hw & ->)
    %get_reward_Ok Hdist Hyaw Htotal. split; [done|].
  injection Hw as <-.
  assert (0 <= dist)%R as Hd.
  { pose proof (Hdist _ _ _ H3 H4) as Hall. rewrite Forall_forall in Hall.
    apply Hall. by eapply getitem_int_elem. }
  assert (0 <= y <= PI)%R as Hy.
  { pose proof (Hyaw _ _ _ H3 H6) as Hall. rewrite Forall_forall in Hall.
    apply Hall. by eapply getitem_int_elem. }
  revert Htotal. cbv zeta.
  cbn [self default_reward __init__ fst enable_clip use_yaw rew_clip_thresh
       truthy default Datatypes.id list_to_map foldr uncurry fst snd].
  rewrite lookup_insert_eq. intros [= <-].
  unfold np.max. case_bool_decide; lra.
Qed.

End reward_default.

(** ** The frame data of [visualiser.py] *)

Section old_visualiser.
Import l5kit.

Context (Matrix : Type)
        (rotation33_as_yaw : list (list R) → R)
        (compute_agent_pose : Point2 → R → Matrix)
        (linalg_inv : Matrix → result Matrix)
        (transform_points : list Point2 → Matrix → result (list Point2))
        (transform_boxes : list (list Point2) → Matrix → result (list (list Point2)))
        (get_ego_as_agent : Frame → Agent)
        (indices_in_bounds : Point2 → list Bounds → R → list nat)
        (PERCEPTION_LABELS : list string).

Abbreviation old_frame_data :=
  (visualiser.get_frame_data Matrix rotation33_as_yaw compute_agent_pose linalg_inv
     transform_points transform_boxes get_ego_as_agent indices_in_bounds
     PERCEPTION_LABELS).

(** What [get_frame_data] returns about the ego vehicle and the agents. *)
Lemma old_frame_data_Ok mapAPI frame agents lanes_dict crosswalks_dict ego_dict agents_dict :
  old_frame_data mapAPI frame agents
    = Ok (lanes_dict, crosswalks_dict, ego_dict, agents_dict) →
  let kept := filter_agents_by_labels agents 0.1%R in
  ∃ agent_from_world boxes ego_box label_indices,
    transform_boxes (zarr_utils.box_world_coords (get_ego_as_agent frame :: kept))
                    agent_from_world = Ok boxes ∧
    boxes !! 0%nat = Some ego_box ∧
    mapM np.argmax (map label_probabilities kept) = Ok label_indices ∧
    mapM (np.getitem PERCEPTION_LABELS) label_indices = Ok (visualiser.agents_name agents_dict) ∧
    mapM (λ ak : Agent * nat, np.getitem (label_probabilities ak.1) ak.2)
         (zip kept label_indices) = Ok (visualiser.agents_p agents_dict) ∧
    visualiser.agents_id agents_dict = map track_id kept ∧
    visualiser.agents_x agents_dict = map (map fst) (drop 1 boxes) ∧
    visualiser.agents_y agents_dict = map (map snd) (drop 1 boxes) ∧
    ego_dict = {| visualiser.dict_x := [map fst ego_box];
                  visualiser.dict_y := [map snd ego_box] |} ∧
    length (visualiser.dict_x lanes_dict) = length (visualiser.dict_y lanes_dict) ∧
    length (visualiser.dict_x crosswalks_dict) = length (visualiser.dict_y crosswalks_dict).
Proof.
  unfold visualiser.get_frame_data. cbv zeta.
  intros (afw & _ & H)%bind_Ok.
  apply bind_Ok in H as (lanes & _ & H).
  apply bind_Ok in H as (cws & _ & H).
  apply bind_Ok in H as (boxes & Hboxes & H).
  apply bind_Ok in H as (ego_box & Hego & H).
  apply bind_Ok in H as (ks & Hks & H).
  apply bind_Ok in H as (names & Hnames & H).
  apply bind_Ok in H as (probs & Hprobs & [= <- <- <- <-]).
  exists afw, boxes, ego_box, ks. cbn [drop] in *.
  unfold np.getitem in Hego. destruct (boxes !! 0%nat) eqn:Hb; [|discriminate].
  injection Hego as ->.
  cbn [visualiser.agents_name visualiser.agents_p visualiser.agents_id
       visualiser.agents_x visualiser.agents_y visualiser.dict_x visualiser.dict_y].
  repeat split; try done. all: by rewrite !length_map.
Qed.

(** The labels and probabilities that the two visualisers read off the
    same agents are the same. *)
Lemma labels_agree kept label_indices names probs avs :
  mapM np.argmax (map label_probabilities kept) = Ok label_indices →
  mapM (np.getitem PERCEPTION_LABELS) label_indices = Ok names →
  mapM (λ ak : Agent * nat, np.getitem (label_probabilities ak.1) ak.2)
       (zip kept label_indices) = Ok probs →
  mapM (zarr_utils.agent_vis PERCEPTION_LABELS)
       (zip kept (zarr_utils.box_world_coords kept)) = Ok avs →
  names = map agent_type avs ∧ probs = map agent_prob avs.
Proof.
  unfold zarr_utils.box_world_coords.
  revert label_indices names probs avs.
  induction kept as [|a kept IH]; intros ks names probs avs; simpl.
  - intros [= <-]. simpl. by intros [= <-] [= <-] [= <-].
  - intros (k & Hk & H)%bind_Ok. apply bind_Ok in H as (ks' & Hks' & [= <-]).
    simpl.
    intros (type & Htype & H)%bind_Ok. apply bind_Ok in H as (names' & Hnames' & [= <-]).
    intros (prob & Hprob & H)%bind_Ok. apply bind_Ok in H as (probs' & Hprobs' & [= <-]).
    intros (av & Hav & H)%bind_Ok. apply bind_Ok in H as (avs' & Havs' & [= <-]).
    destruct (IH _ _ _ _ Hks' Hnames' Hprobs' Havs') as [-> ->].
    unfold zarr_utils.agent_vis in Hav. rewrite Hk in Hav. simpl in Hav.
    rewrite Htype in Hav. simpl in Hav. cbn [fst snd] in Hprob.
    rewrite Hprob in Hav. simpl in Hav. injection Hav as <-. done.
Qed.

(** X20.  In the agent dictionary of [get_frame_data] the identifiers are
    the track identifiers of the agents kept at threshold 0.1, in order, and
    the names and probabilities are as many; the ego dictionary holds one
    polygon.  When the transform returns as many boxes as it is given, the
    polygons of the agents are as many too. *)
Theorem old_agents_aligned mapAPI frame agents lanes_dict crosswalks_dict ego_dict
    agents_dict :
  old_frame_data mapAPI frame agents
    = Ok (lanes_dict, crosswalks_dict, ego_dict, agents_dict) →
  let kept := filter_agents_by_labels agents 0.1%R in
  visualiser.agents_id agents_dict = map track_id kept ∧
  length (visualiser.agents_name agents_dict) = length kept ∧
  length (visualiser.agents_p agents_dict) = length kept ∧
  length (visualiser.dict_x ego_dict) = 1%nat ∧
  length (visualiser.dict_y ego_dict) = 1%nat ∧
  ((∀ boxes m boxes', transform_boxes boxes m = Ok boxes' →
                       length boxes' = length boxes) →
   length (visualiser.agents_x agents_dict) = length kept ∧
   length (visualiser.agents_y agents_dict) = length kept).
Proof.
  intros (afw & boxes & ego_box & ks & Hboxes & _ & Hks & Hnames & Hprobs &
          Hid & Hx & Hy & -> & _)%old_frame_data_Ok kept.
  subst kept. set (kept := filter_agents_by_labels agents 0.1%R) in *.
  clearbody kept.
  assert (length ks = length kept) as Hlen.
  { apply mapM_Ok_length in Hks. by rewrite Hks, length_map. }
  split; [done|]. split; [|split; [|split; [done|split; [done|]]]].
  - apply mapM_Ok_length in Hnames. congruence.
  - apply mapM_Ok_length in Hprobs. rewrite Hprobs, length_zip. lia.
  - intros Hshape. apply Hshape in Hboxes.
    unfold zarr_utils.box_world_coords in Hboxes. simpl in Hboxes.
    rewrite length_map in Hboxes.
    rewrite Hx, Hy, !length_map, !length_drop. unfold Point2 in *. split; lia.
Qed.

(** X21.  The two visualisers agree on the agents: for the same frame and
    agents, [get_frame_data] of [visualiser.py] and [_get_frame_data] of
    [zarr_utils.py] (given the agents kept at 0.1) list the same track
    identifiers, names and probabilities, in the same order. *)
Theorem visualisers_agree_on_agents set_iter mapAPI frame agents tls_frame
    lanes_dict crosswalks_dict ego_dict agents_dict fv :
  old_frame_data mapAPI frame agents
    = Ok (lanes_dict, crosswalks_dict, ego_dict, agents_dict) →
  zarr_utils._get_frame_data get_ego_as_agent indices_in_bounds PERCEPTION_LABELS
    set_iter mapAPI frame (filter_agents_by_labels agents 0.1%R) tls_frame = Ok fv →
  visualiser.agents_id agents_dict = map agent_track_id (agents_vis fv) ∧
  visualiser.agents_name agents_dict = map agent_type (agents_vis fv) ∧
  visualiser.agents_p agents_dict = map agent_prob (agents_vis fv).
Proof.
  intros (afw & boxes & ego_box & ks & _ & _ & Hks & Hnames & Hprobs &
          Hid & _)%old_frame_data_Ok
         (lanes_vis & cws & avs & _ & _ & Havs & ->)%get_frame_data_Ok.
  cbn [agents_vis].
  destruct (labels_agree _ _ _ _ _ Hks Hnames Hprobs Havs) as [-> ->].
  split; [|done]. rewrite Hid. symmetry. by eapply agents_loop_track_ids.
Qed.

End old_visualiser.

(** * The further properties at the small scene *)

Section more_sample_runs.
Import l5kit zarr_utils.

Ltac decide_reals :=
  repeat first
    [ rewrite bool_decide_eq_true_2 by (simpl; lra)
    | rewrite bool_decide_eq_false_2 by (simpl; lra)
    | rewrite decide_True by (repeat split; simpl; lra)
    | rewrite decide_False by (simpl; lra) ].

Abbreviation sample_convert :=
  (zarr_to_visualizer_scene sample.get_ego_as_agent sample.indices_in_bounds
                            sample.PERCEPTION_LABELS sample.set_iter).
Abbreviation sample_old_frame_data :=
  (visualiser.get_frame_data unit sample.rotation33_as_yaw sample.compute_agent_pose
     sample.linalg_inv sample.transform_points sample.transform_boxes
     sample.get_ego_as_agent sample.indices_in_bounds sample.PERCEPTION_LABELS).

Lemma sample_lane_red :
  lane_colour_of sample.set_iter sample.mapAPI {[ "f1"; "f2" ]} {[ "f1" ]}
    = Ok "#FF3300".
Proof.
  unfold lane_colour_of.
  replace (sample.set_iter _) with ["f1"] by (vm_compute; reflexivity).
  cbn -[COLORS]. by rewrite COLORS_red.
Qed.

(** The scene, converted with trajectories. *)
Lemma sample_scene_with_trajectories :
  sample_convert sample.dataset sample.mapAPI true
    = Ok sample.scene_vis_with_trajectories.
Proof.
  rewrite convert_single_scene by reflexivity.
  cbn [mapM seq length frames sample.dataset].
  rewrite (convert_frame_lookup _ _ _ _ _ _ _ _ _ 0 sample.frame0) by reflexivity.
  rewrite (convert_frame_lookup _ _ _ _ _ _ _ _ _ 1 sample.frame1) by reflexivity.
  cbv zeta. unfold np.slice. cbn [take drop Nat.sub
      agent_index_interval traffic_light_faces_index_interval sample.frame0
      sample.frame1 fst snd agents tl_faces sample.dataset].
  by rewrite sample_filter_frame0, sample_filter_frame1,
             sample_frame0_data, sample_frame1_data.
Qed.

(** The frame data of [visualiser.py] for the first frame. *)
Lemma sample_old_frame0 :
  sample_old_frame_data sample.mapAPI sample.frame0 [sample.car0; sample.ghost]
    = Ok sample.old_frame0.
Proof.
  unfold visualiser.get_frame_data. rewrite sample_filter_frame0.
  unfold sample.indices_in_bounds. cbn. decide_reals. cbn.
  rewrite sin_0, cos_0. unfold mret, result_ret, sample.old_frame0.
  repeat match goal with
         | |- Ok _ = Ok _ => f_equal
         | |- (_, _) = (_, _) => f_equal
         | |- visualiser.Build_XYDict _ _ = _ => f_equal
         | |- visualiser.Build_AgentsDict _ _ _ _ _ = _ => f_equal
         | |- _ :: _ = _ :: _ => f_equal
         end; lra.
Qed.

(** The reward of the first frame of the table. *)
Lemma sample_reward :
  reward.get_reward _ sample.evaluate sample.scene_metric_results sample.cle_reward
    sample.metric_table 0 sample.simulated_outputs
    = Ok (sample.reward_dict, sample.metric_table).
Proof.
  apply get_reward_Ok.
  exists {| reward.scene_id := 3 |},
         (list_to_map [ ("displacement_error_l2", [0; 20]%R);
                        ("yaw_error_closest_angle", [0; 0.1]%R) ]),
         [0; 20]%R, 20%R, [0; 0.1]%R, 0.1%R, 20%R.
  repeat (split; [reflexivity|]). cbn [reward.enable_clip reward.use_yaw
    reward.rew_clip_thresh sample.cle_reward reward.truthy default].
  unfold np.max. rewrite bool_decide_eq_false_2 by lra.
  unfold sample.reward_dict.
  repeat match goal with
         | |- list_to_map _ = list_to_map _ => f_equal
         | |- _ :: _ = _ :: _ => f_equal
         | |- (_, _) = (_, _) => f_equal
         end; unfold Datatypes.id; cbv iota; lra.
Qed.

(** The entries of the table of the small scene. *)
Lemma sample_displacement_entries (P : R → Prop) :
  P 0%R → P 20%R →
  metric_entries P "displacement_error_l2" sample.metric_table.
Proof.
  intros H0 H20 sid sm xs. unfold sample.metric_table.
  intros [_ <-]%lookup_singleton_Some Hname.
  apply elem_of_list_to_map_2 in Hname.
  apply elem_of_cons in Hname as [[= ->] | Hname]; [by repeat constructor|].
  apply elem_of_cons in Hname as [[=] | Hname].
  by apply elem_of_nil in Hname.
Qed.

Lemma sample_yaw_entries (P : R → Prop) :
  P 0%R → P 0.1%R →
  metric_entries P "yaw_error_closest_angle" sample.metric_table.
Proof.
  intros H0 H01 sid sm xs. unfold sample.metric_table.
  intros [_ <-]%lookup_singleton_Some Hname.
  apply elem_of_list_to_map_2 in Hname.
  apply elem_of_cons in Hname as [[=] | Hname].
  apply elem_of_cons in Hname as [[= ->] | Hname]; [by repeat constructor|].
  by apply elem_of_nil in Hname.
Qed.

End more_sample_runs.

Section more_sample_instances.
Import l5kit zarr_utils.

Lemma box_quarter_turn_sample :
  box_of sample.turned =
    [ (30 + 2 / 2, 40 - 6 / 2); (30 - 2 / 2, 40 - 6 / 2);
      (30 - 2 / 2, 40 + 6 / 2); (30 + 2 / 2, 40 + 6 / 2) ]%R.
Proof. apply (box_quarter_turn sample.turned). reflexivity. Defined.

Lemma lane_colour_in_table_sample :
  "#FF3300" ∈ [ "gray"; "#33CC33"; "#FF3300"; "#FFFF66";
                "#1F77B4"; "#CC33FF"; "#66CCFF" ].
Proof.
  apply (lane_colour_in_table sample.set_iter sample.mapAPI
           {[ "f1"; "f2" ]} {[ "f1" ]}).
  apply sample_lane_red.
Defined.

Lemma lane_colour_found_iff_sample :
  is_Ok (lane_colour_of sample.set_iter sample.mapAPI_blue {[ "f1"; "f2" ]} {[ "f1" ]}) ↔
  ∀ tl_id, tl_id ∈ ({[ "f1"; "f2" ]} : gset string) → tl_id ∈ ({[ "f1" ]} : gset string) →
           is_Ok (colour_of_face sample.mapAPI_blue tl_id).
Proof.
  apply (lane_colour_found_iff sample.set_iter sample.mapAPI_blue).
  intros s. reflexivity.
Defined.

Lemma lane_colour_order_independent_sample :
  lane_colour_of sample.set_iter sample.mapAPI {[ "f1"; "f2" ]} {[ "f1" ]}
    = Ok "#FF3300".
Proof.
  apply (lane_colour_order_independent sample.set_iter sample.mapAPI).
  - intros s. reflexivity.
  - intros Hempty. assert ("f1" ∈ (∅ : gset string)) as Hin; [|set_solver].
    rewrite <- Hempty. set_solver.
  - intros tl_id _ _. apply COLORS_red.
Defined.

Lemma agents_in_order_sample :
  length (agents_vis sample.frame0_vis) = length [sample.car0] ∧
  map agent_track_id (agents_vis sample.frame0_vis) = map track_id [sample.car0].
Proof.
  apply (agents_in_order sample.get_ego_as_agent sample.indices_in_bounds
           sample.PERCEPTION_LABELS sample.set_iter
           sample.mapAPI sample.frame0 [sample.car0] [sample.face]).
  apply sample_frame0_data.
Defined.

Lemma agent_label_is_most_probable_sample :
  ∃ av k,
    agents_vis sample.frame0_vis !! 0%nat = Some av ∧
    label_probabilities sample.car0 !! k = Some (agent_prob av) ∧
    sample.PERCEPTION_LABELS !! k = Some (agent_type av) ∧
    Forall (λ p, (p <= agent_prob av)%R) (label_probabilities sample.car0) ∧
    (∀ j p, (j < k)%nat → label_probabilities sample.car0 !! j = Some p →
            (p < agent_prob av)%R) ∧
    agent_color av = default "#1F77B4" (COLORS !! agent_type av).
Proof.
  apply (agent_label_is_most_probable sample.get_ego_as_agent sample.indices_in_bounds
           sample.PERCEPTION_LABELS sample.set_iter
           sample.mapAPI sample.frame0 [sample.car0] [sample.face]).
  - apply sample_frame0_data.
  - reflexivity.
Defined.

Lemma conversion_raises_first_failing_frame_sample :
  ∃ i, (i < length (frames sample.dataset))%nat ∧
       frame_vis_at sample.get_ego_as_agent sample.indices_in_bounds
         sample.PERCEPTION_LABELS sample.set_iter sample.mapAPI_blue false
         (frames sample.dataset)
         (filter_agents_by_frames (frames sample.dataset) (agents sample.dataset))
         (filter_tl_faces_by_frames (frames sample.dataset) (tl_faces sample.dataset)) i
         = Raise KeyError ∧
       ∀ j, (j < i)%nat →
            is_Ok (frame_vis_at sample.get_ego_as_agent sample.indices_in_bounds
                     sample.PERCEPTION_LABELS sample.set_iter sample.mapAPI_blue false
                     (frames sample.dataset)
                     (filter_agents_by_frames (frames sample.dataset)
                                              (agents sample.dataset))
                     (filter_tl_faces_by_frames (frames sample.dataset)
                                                (tl_faces sample.dataset)) j).
Proof.
  apply (conversion_raises_first_failing_frame sample.get_ego_as_agent
           sample.indices_in_bounds sample.PERCEPTION_LABELS sample.set_iter
           sample.dataset sample.mapAPI_blue false KeyError).
  - reflexivity.
  - apply sample_blue_raises.
Defined.

Lemma trajectories_follow_agents_sample :
  Forall (λ fv, map traj_track_id (trajectories fv)
                  = map agent_track_id (agents_vis fv) ++ [(-1)%Z])
         sample.scene_vis_with_trajectories.
Proof.
  apply (trajectories_follow_agents sample.get_ego_as_agent sample.indices_in_bounds
           sample.PERCEPTION_LABELS sample.set_iter sample.dataset sample.mapAPI).
  apply sample_scene_with_trajectories.
Defined.

Lemma frames_well_formed_sample :
  Forall well_formed_frame sample.scene_vis_with_trajectories.
Proof.
  apply (frames_well_formed sample.get_ego_as_agent sample.indices_in_bounds
           sample.PERCEPTION_LABELS sample.set_iter sample.dataset sample.mapAPI true).
  apply sample_scene_with_trajectories.
Defined.

Lemma get_reward_needs_yaw_weight_sample :
  reward.get_reward _ sample.evaluate sample.scene_metric_results
    sample.reward_without_weight sample.metric_table 0 sample.simulated_outputs
    = Raise TypeError.
Proof.
  refine (proj2 (get_reward_needs_yaw_weight _ sample.evaluate
                   sample.scene_metric_results sample.reward_without_weight
                   sample.metric_table 0 sample.simulated_outputs eq_refl)
                {| reward.scene_id := 3 |} sample.metric_table
                (list_to_map [ ("displacement_error_l2", [0; 20]%R);
                               ("yaw_error_closest_angle", [0; 0.1]%R) ])
                [0; 20]%R 20%R [0; 0.1]%R 0.1%R _ _ _ _ _ _ _); reflexivity.
Defined.

Lemma get_reward_beyond_last_frame_sample :
  reward.get_reward _ sample.evaluate sample.scene_metric_results
    sample.cle_reward sample.metric_table 1 sample.simulated_outputs
    = Raise IndexError.
Proof.
  apply (get_reward_beyond_last_frame _ sample.evaluate sample.scene_metric_results
           sample.cle_reward sample.metric_table 1 sample.simulated_outputs
           {| reward.scene_id := 3 |} sample.metric_table
           (list_to_map [ ("displacement_error_l2", [0; 20]%R);
                          ("yaw_error_closest_angle", [0; 0.1]%R) ])
           [0; 20]%R); reflexivity.
Defined.

Lemma get_reward_evaluates_once_sample :
  sample.evaluate sample.metric_table sample.simulated_outputs = Ok sample.metric_table ∧
  ∃ first, head sample.simulated_outputs = Some first ∧
           is_Some (sample.scene_metric_results sample.metric_table
                      !! reward.scene_id first).
Proof.
  assert (sample.simulated_outputs ≠ []) as Hne by discriminate.
  exact (proj2 (get_reward_evaluates_once _ sample.evaluate
                  sample.scene_metric_results sample.cle_reward
                  sample.metric_table 0 sample.simulated_outputs Hne)
               sample.reward_dict sample.metric_table sample_reward).
Defined.

Lemma reward_clips_the_error_sample :
  ∃ d, reward.get_reward _ sample.evaluate sample.scene_metric_results
         sample.cle_reward sample.metric_table 0 sample.simulated_outputs
         = Ok (d, sample.metric_table) ∧
       d !! "distance" = Some (- Rmin 20 15)%R ∧
       d !! "yaw" = Some (- (20 * 0.1))%R.
Proof.
  apply (reward_clips_the_error _ sample.evaluate sample.scene_metric_results
           sample.cle_reward sample.metric_table 0 sample.simulated_outputs
           {| reward.scene_id := 3 |} sample.metric_table
           (list_to_map [ ("displacement_error_l2", [0; 20]%R);
                          ("yaw_error_closest_angle", [0; 0.1]%R) ])
           [0; 20]%R 20%R [0; 0.1]%R 0.1%R 20%R); reflexivity.
Defined.

Lemma reward_never_positive_sample :
  (- 15 + - 2 <= 0)%R ∧ (- 15 <= 0)%R ∧ (- 2 <= 0)%R.
Proof.
  assert (∀ key value, sample.reward_dict !! key = Some value → (value <= 0)%R)
    as Hall.
  { apply (reward_never_positive _ sample.evaluate sample.scene_metric_results
             sample.cle_reward sample.metric_table 0 sample.simulated_outputs
             sample.reward_dict sample.metric_table 20%R).
    - apply sample_reward.
    - apply sample_displacement_entries; lra.
    - apply sample_yaw_entries; lra.
    - simpl. lra.
    - reflexivity.
    - lra. }
  split; [|split].
  - apply (Hall "total"). reflexivity.
  - apply (Hall "distance"). reflexivity.
  - apply (Hall "yaw"). reflexivity.
Defined.

Lemma default_reward_range_sample :
  (reward_object.default_reward _ sample.metric_table).2 = sample.metric_table ∧
  (- 15 - 20 * PI <= - 15 + - 2 <= 0)%R.
Proof.
  apply (default_reward_range _ sample.metric_table sample.evaluate
           sample.scene_metric_results 0 sample.simulated_outputs
           sample.reward_dict sample.metric_table (- 15 + - 2)%R).
  - apply sample_reward.
  - apply sample_displacement_entries; lra.
  - pose proof PI2_1. apply sample_yaw_entries; lra.
  - reflexivity.
Defined.

Lemma old_agents_aligned_sample :
  let kept := filter_agents_by_labels [sample.car0; sample.ghost] 0.1%R in
  visualiser.agents_id sample.old_frame0.2 = map track_id kept ∧
  length (visualiser.agents_name sample.old_frame0.2) = length kept ∧
  length (visualiser.agents_p sample.old_frame0.2) = length kept ∧
  length (visualiser.dict_x sample.old_frame0.1.2) = 1%nat ∧
  length (visualiser.dict_y sample.old_frame0.1.2) = 1%nat ∧
  ((∀ boxes m boxes', sample.transform_boxes boxes m = Ok boxes' →
                       length boxes' = length boxes) →
   length (visualiser.agents_x sample.old_frame0.2) = length kept ∧
   length (visualiser.agents_y sample.old_frame0.2) = length kept).
Proof.
  apply (old_agents_aligned unit sample.rotation33_as_yaw sample.compute_agent_pose
           sample.linalg_inv sample.transform_points sample.transform_boxes
           sample.get_ego_as_agent sample.indices_in_bounds sample.PERCEPTION_LABELS
           sample.mapAPI sample.frame0 [sample.car0; sample.ghost]
           sample.old_frame0.1.1.1 sample.old_frame0.1.1.2).
  apply sample_old_frame0.
Defined.

Lemma visualisers_agree_on_agents_sample :
  visualiser.agents_id sample.old_frame0.2
    = map agent_track_id (agents_vis sample.frame0_vis) ∧
  visualiser.agents_name sample.old_frame0.2
    = map agent_type (agents_vis sample.frame0_vis) ∧
  visualiser.agents_p sample.old_frame0.2
    = map agent_prob (agents_vis sample.frame0_vis).
Proof.
  apply (visualisers_agree_on_agents unit sample.rotation33_as_yaw
           sample.compute_agent_pose sample.linalg_inv sample.transform_points
           sample.transform_boxes sample.get_ego_as_agent sample.indices_in_bounds
           sample.PERCEPTION_LABELS sample.set_iter
           sample.mapAPI sample.frame0 [sample.car0; sample.ghost] [sample.face]
           sample.old_frame0.1.1.1 sample.old_frame0.1.1.2 sample.old_frame0.1.2).
  - apply sample_old_frame0.
  - rewrite sample_filter_frame0. apply sample_frame0_data.
Defined.

End more_sample_instances.
